(** * Verbalize: the prompt builder, the response sanitizer and the
      [processVoice] handler of [functions/index.js]

    Strings are JavaScript strings: finite sequences of UTF-16 code units.
    A code unit is an integer ([Z]); the functions below are total on every
    list of integers and only ever compare units with constants. *)

From Stdlib Require Import String Ascii ZArith List Bool Lia.
From Stdlib Require Import QArith Qminmax Lqa.
From Equations Require Import Equations.
Import ListNotations.
Open Scope Z_scope.

(** ** JavaScript strings *)

Definition jsstring : Type := list Z.

(** The code units of an ASCII literal of the source. *)
Definition lit (s : string) : jsstring :=
  map (fun a => Z.of_N (N_of_ascii a)) (list_ascii_of_string s).

Definition BACKTICK : Z := 96.
Definition NEWLINE : Z := 10.
Definition DQUOTE : Z := 34.

Definition between (lo hi u : Z) : bool := (lo <=? u) && (u <=? hi).

(** The class [\w] of a regular expression without the [u] and [i] flags:
    [[A-Za-z0-9_]]. *)
Definition isWord (u : Z) : bool :=
  between 48 57 u || between 65 90 u || (u =? 95) || between 97 122 u.

(** White space and line terminators, the units [String.prototype.trim]
    removes: TAB, LF, VT, FF, CR, SP, NBSP, U+1680, U+2000..U+200A, U+2028,
    U+2029, U+202F, U+205F, U+3000 and U+FEFF. *)
Definition isWhiteSpace (u : Z) : bool :=
  between 9 13 u || (u =? 32) || (u =? 160) || (u =? 5760)
  || between 8192 8202 u || (u =? 8232) || (u =? 8233) || (u =? 8239)
  || (u =? 8287) || (u =? 12288) || (u =? 65279).

Fixpoint trimStart (s : jsstring) : jsstring :=
  match s with
  | [] => []
  | c :: r => if isWhiteSpace c then trimStart r else s
  end.

Definition trimEnd (s : jsstring) : jsstring := rev (trimStart (rev s)).

Definition trim (s : jsstring) : jsstring := trimEnd (trimStart s).

(** [s.substring(n)] for [0 <= n]: the units from index [n] on, the empty
    string when [n] is past the end. *)
Definition substring (n : nat) (s : jsstring) : jsstring := skipn n s.

Fixpoint startsWith (s p : jsstring) {struct p} : bool :=
  match p, s with
  | [], _ => true
  | _ :: _, [] => false
  | b :: p', a :: s' => (a =? b) && startsWith s' p'
  end.

(** [String.prototype.toLowerCase], unit by unit.  The ASCII capitals map to
    their small letters.  Two units outside ASCII have a lower-case form that
    holds an ASCII unit and are given exactly: U+0130 (capital I with dot
    above) becomes "i" followed by U+0307, and U+212A (the Kelvin sign)
    becomes "k".  Every other unit is kept: its lower-case form holds no
    ASCII unit, and this program only ever tests a lower-cased string
    against ASCII phrases. *)
Definition lowerUnit (u : Z) : jsstring :=
  if between 65 90 u then [u + 32]
  else if u =? 304 then [105; 775]
  else if u =? 8490 then [107]
  else [u].

Definition toLowerCase (s : jsstring) : jsstring := flat_map lowerUnit s.

(** [Array.prototype.join]. *)
Fixpoint join (sep : jsstring) (parts : list jsstring) : jsstring :=
  match parts with
  | [] => []
  | [p] => p
  | p :: rest => p ++ sep ++ join sep rest
  end.

(** ** The response sanitizer: [cleanGeneratedCode] *)

(** The greedy [[\w]*] of the fence pattern. *)
Fixpoint skipWord (s : jsstring) : jsstring :=
  match s with
  | [] => []
  | c :: r => if isWord c then skipWord r else s
  end.

(** The greedy [\n?] of the fence pattern. *)
Definition skipNewline (s : jsstring) : jsstring :=
  match s with
  | [] => []
  | c :: r => if c =? NEWLINE then r else s
  end.

Definition startsFence (s : jsstring) : bool :=
  match s with
  | a :: b :: c :: _ => (a =? BACKTICK) && (b =? BACKTICK) && (c =? BACKTICK)
  | _ => false
  end.

(** One attempt of the pattern [/```[\w]*\n?/] at the head of [s]: the rest
    of the string after the match.  Both quantifiers are greedy and nothing
    follows them, so the first attempt of the backtracking matcher is the
    longest one and succeeds. *)
Definition matchFence (s : jsstring) : option jsstring :=
  if startsFence s then Some (skipNewline (skipWord (skipn 3 s))) else None.

Lemma skipWord_length (s : jsstring) :
  (length (skipWord s) <= length s)%nat.
Proof.
  induction s as [|c r IH]; simpl; [lia|].
  destruct (isWord c); simpl; lia.
Qed.

Lemma skipNewline_length (s : jsstring) :
  (length (skipNewline s) <= length s)%nat.
Proof.
  destruct s as [|c r]; simpl; [lia|].
  destruct (c =? NEWLINE); simpl; lia.
Qed.

Lemma matchFence_length (s rest : jsstring) :
  matchFence s = Some rest -> (length rest + 3 <= length s)%nat.
Proof.
  unfold matchFence. destruct (startsFence s) eqn:E; [|discriminate].
  intros [= <-].
  destruct s as [|a [|b [|c r]]]; try discriminate. simpl.
  pose proof (skipNewline_length (skipWord r)).
  pose proof (skipWord_length r). lia.
Qed.

(** A value together with the equation that names it, to keep the outcome
    of the match attempt at hand in the termination argument. *)
Definition inspect {A : Type} (a : A) : {b : A | a = b} := exist _ a eq_refl.

(** [code.replace(/```[\w]*\n?/g, '')]: scan from the left; where the pattern
    matches, drop the match and go on after it; elsewhere keep the unit and
    go on at the next one. *)
Equations removeCodeFences (s : jsstring) : jsstring by wf (length s) lt :=
  removeCodeFences [] := [];
  removeCodeFences (c :: r) with inspect (matchFence (c :: r)) := {
    | exist _ (Some rest) _ := removeCodeFences rest;
    | exist _ None _ := c :: removeCodeFences r }.
Next Obligation.
  match goal with H : matchFence _ = Some _ |- _ =>
    apply matchFence_length in H; simpl in H; lia end.
Qed.

Definition unwantedPrefixes : list jsstring :=
  [ lit "Here's the code:";
    lit "Here is the code:";
    lit "The code is:";
    lit "Here's your code:";
    lit "Here is your code:" ].

(** The test of the loop body:
    [cleaned.toLowerCase().startsWith(prefix.toLowerCase())]. *)
Definition hasPrefix (cleaned prefix : jsstring) : bool :=
  startsWith (toLowerCase cleaned) (toLowerCase prefix).

(** The loop [for (const prefix of unwantedPrefixes) { if ... break; }]: the
    first prefix that passes the test is cut off and the loop is left; when
    none passes, [cleaned] is as it was. *)
Fixpoint removeUnwantedPrefix (prefixes : list jsstring) (cleaned : jsstring)
  : jsstring :=
  match prefixes with
  | [] => cleaned
  | prefix :: rest =>
      if hasPrefix cleaned prefix
      then trim (substring (length prefix) cleaned)
      else removeUnwantedPrefix rest cleaned
  end.

Definition cleanGeneratedCode (code : jsstring) : jsstring :=
  let cleaned := removeCodeFences code in
  let cleaned := trim cleaned in
  removeUnwantedPrefix unwantedPrefixes cleaned.

(** ** The prompt builder: [createCodePrompt] *)

(** The values a field of the JSON request body takes in this development:
    absent, [null] or a string. *)
Inductive jsval : Type :=
| VUndefined
| VNull
| VString (s : jsstring).

(** [ToString], as applied by a template literal and by a computed property
    key. *)
Definition toString (v : jsval) : jsstring :=
  match v with
  | VUndefined => lit "undefined"
  | VNull => lit "null"
  | VString s => s
  end.

Definition truthy (v : jsval) : bool :=
  match v with
  | VUndefined | VNull => false
  | VString s => negb (Nat.eqb (length s) 0)
  end.

Fixpoint jsstring_eqb (a b : jsstring) : bool :=
  match a, b with
  | [], [] => true
  | x :: a', y :: b' => (x =? y) && jsstring_eqb a' b'
  | _, _ => false
  end.

(** The own properties of the object literal [languageInstructions]. *)
Definition languageInstructions : list (jsstring * jsstring) :=
  [ (lit "javascript",
     lit "Generate clean, modern JavaScript code. Use ES6+ features when appropriate.");
    (lit "python",
     lit "Generate clean Python code following PEP 8 standards. Use type hints when helpful.");
    (lit "java",
     lit "Generate clean Java code with proper class structure and naming conventions.");
    (lit "cpp",
     lit "Generate clean C++ code with proper headers and modern C++ features.");
    (lit "html",
     lit "Generate semantic HTML5 code with proper structure and accessibility.");
    (lit "css",
     lit "Generate modern CSS with flexbox/grid and responsive design principles.") ].

Definition genericInstruction : jsstring :=
  lit "Generate clean, well-structured code.".

(** An object literal inherits from [Object.prototype].  Its function-valued
    properties, each with the [name] of the function it holds. *)
Definition objectPrototypeFunctions : list (jsstring * jsstring) :=
  [ (lit "constructor", lit "Object");
    (lit "__defineGetter__", lit "__defineGetter__");
    (lit "__defineSetter__", lit "__defineSetter__");
    (lit "hasOwnProperty", lit "hasOwnProperty");
    (lit "__lookupGetter__", lit "__lookupGetter__");
    (lit "__lookupSetter__", lit "__lookupSetter__");
    (lit "isPrototypeOf", lit "isPrototypeOf");
    (lit "propertyIsEnumerable", lit "propertyIsEnumerable");
    (lit "toString", lit "toString");
    (lit "valueOf", lit "valueOf");
    (lit "toLocaleString", lit "toLocaleString") ].

(** What reading a property of [languageInstructions] yields. *)
Inductive propValue : Type :=
| POwn (s : jsstring)            (* a string of the literal *)
| PFunction (name : jsstring)    (* a built-in function of Object.prototype *)
| PObjectPrototype               (* Object.prototype, through __proto__ *)
| PUndefined.

Fixpoint assoc (k : jsstring) (l : list (jsstring * jsstring))
  : option jsstring :=
  match l with
  | [] => None
  | (k', v) :: rest => if jsstring_eqb k k' then Some v else assoc k rest
  end.

(** [languageInstructions[language]]: the key is [ToString(language)]; the
    own properties are searched first, then the prototype. *)
Definition getProperty (language : jsval) : propValue :=
  let key := toString language in
  match assoc key languageInstructions with
  | Some s => POwn s
  | None =>
      match assoc key objectPrototypeFunctions with
      | Some name => PFunction name
      | None =>
          if jsstring_eqb key (lit "__proto__") then PObjectPrototype
          else PUndefined
      end
  end.

Definition propTruthy (v : propValue) : bool :=
  match v with
  | POwn s => negb (Nat.eqb (length s) 0)
  | PFunction _ | PObjectPrototype => true
  | PUndefined => false
  end.

(** [ToString] of a property value inside the template literal; a built-in
    function prints as Node prints it. *)
Definition propToString (v : propValue) : jsstring :=
  match v with
  | POwn s => s
  | PFunction name => lit "function " ++ name ++ lit "() { [native code] }"
  | PObjectPrototype => lit "[object Object]"
  | PUndefined => lit "undefined"
  end.

(** [languageInstructions[language] ||
     'Generate clean, well-structured code.'] *)
Definition instructionFor (language : jsval) : propValue :=
  let v := getProperty language in
  if propTruthy v then v else POwn genericInstruction.

Definition createCodePrompt (transcript : jsstring) (language : jsval)
  : jsstring :=
  lit "You are a code generation assistant. Convert the following natural language request into "
  ++ toString language ++ lit " code." ++ [NEWLINE; NEWLINE]
  ++ lit "Request: " ++ [DQUOTE] ++ transcript ++ [DQUOTE] ++ [NEWLINE; NEWLINE]
  ++ lit "Requirements:" ++ [NEWLINE]
  ++ lit "- " ++ propToString (instructionFor language) ++ [NEWLINE]
  ++ lit "- Include helpful comments" ++ [NEWLINE]
  ++ lit "- Make the code production-ready" ++ [NEWLINE]
  ++ lit "- If the request is unclear, make reasonable assumptions" ++ [NEWLINE]
  ++ lit "- Only return the code, no explanations or markdown formatting"
  ++ [NEWLINE; NEWLINE]
  ++ lit "Generate the " ++ toString language ++ lit " code:".

(** ** The HTTP handler: [processVoice] *)

Record JsError : Type := { errName : jsstring; errMessage : jsstring }.

Record Body : Type := { audio : jsval; language : jsval }.

Record Request : Type := { method : jsstring; body : Body }.

Inductive Payload : Type :=
| Text (s : jsstring)
| Failure (error : jsstring)       (* { success: false, error } *)
| Success (transcript code : jsstring) (language : jsval).
                                   (* { success: true, transcript, ... } *)

Record Response : Type :=
  { status : Z; headers : list (jsstring * jsstring); payload : Payload }.

(** The recognition request and what the speech client answers. *)
Record RecognitionConfig : Type :=
  { encoding : jsstring;
    sampleRateHertz : Z;
    languageCode : jsstring;
    enableAutomaticPunctuation : bool;
    model : jsstring }.

Record RecognizeRequest : Type :=
  { content : list Z; config : RecognitionConfig }.

Record Alternative : Type := { transcript : jsstring }.
Record RecognitionResult : Type := { alternatives : list Alternative }.
Record RecognizeResponse : Type := { results : list RecognitionResult }.

(** The generation request (one content with one text part; the temperature
    0.1 is held in hundredths) and what the model answers: the candidates,
    each with the texts of the parts of its content. *)
Record GenerateRequest : Type :=
  { role : jsstring;
    text : jsstring;
    maxOutputTokens : Z;
    temperaturePercent : Z }.

Record Candidate : Type := { parts : list jsstring }.
Record GenerateResponse : Type := { candidates : list Candidate }.

(** What a run of the handler does to the outside, in order. *)
Inductive Event : Type :=
| ConsoleLog (message : list jsstring)
| ConsoleError (label : jsstring) (error : JsError)
| CallRecognize (request : RecognizeRequest)
| CallGenerateContent (request : GenerateRequest).

(** Computations that record events and either throw or return. *)
Definition Prog (A : Type) : Type := list Event -> list Event * (JsError + A).

Definition ret {A : Type} (a : A) : Prog A := fun log => (log, inr a).

Definition throw {A : Type} (e : JsError) : Prog A := fun log => (log, inl e).

Definition bind {A B : Type} (m : Prog A) (k : A -> Prog B) : Prog B :=
  fun log =>
    match m log with
    | (log', inl e) => (log', inl e)
    | (log', inr a) => k a log'
    end.

Definition emit (ev : Event) : Prog unit := fun log => (log ++ [ev], inr tt).

Definition tryCatch {A : Type} (m : Prog A) (handler : JsError -> Prog A)
  : Prog A :=
  fun log =>
    match m log with
    | (log', inl e) => handler e log'
    | (log', inr a) => (log', inr a)
    end.

Declare Scope prog_scope.
Delimit Scope prog_scope with prog.
Notation "x <- m ;; k" := (bind m (fun x => k))
  (at level 61, m at next level, right associativity) : prog_scope.
Notation "m ;; k" := (bind m (fun _ => k))
  (at level 61, right associativity) : prog_scope.
Open Scope prog_scope.

Fixpoint mapM {A B : Type} (f : A -> Prog B) (l : list A) : Prog (list B) :=
  match l with
  | [] => ret []
  | a :: rest => b <- f a ;; bs <- mapM f rest ;; ret (b :: bs)
  end.

Definition typeError (property : jsstring) : JsError :=
  {| errName := lit "TypeError";
     errMessage := lit "Cannot read properties of undefined (reading '"
                   ++ property ++ lit "')" |}.

(** [xs[0]] followed by a property read: a [TypeError] on an empty array. *)
Definition first {A : Type} (property : jsstring) (xs : list A) : Prog A :=
  match xs with
  | [] => throw (typeError property)
  | x :: _ => ret x
  end.

Definition corsHeaders : list (jsstring * jsstring) :=
  [ (lit "Access-Control-Allow-Origin", lit "*");
    (lit "Access-Control-Allow-Methods", lit "GET, POST");
    (lit "Access-Control-Allow-Headers", lit "Content-Type") ].

Definition respond (code : Z) (p : Payload) : Response :=
  {| status := code; headers := corsHeaders; payload := p |}.

Definition noAudioMessage : jsstring := lit "No audio data provided".
Definition noSpeechMessage : jsstring :=
  lit "No speech detected. Please try speaking more clearly.".
Definition failedMessage : jsstring :=
  lit "Failed to process voice input. Please try again.".

Section Handler.

(** The two services and the base64 decoder of [Buffer.from] are outside
    the program: any behaviour of theirs is allowed. *)
Variable recognize : RecognizeRequest -> JsError + RecognizeResponse.
Variable generateContent : GenerateRequest -> JsError + GenerateResponse.
Variable bufferFromBase64 : jsstring -> list Z.

Definition callRecognize (request : RecognizeRequest)
  : Prog RecognizeResponse :=
  emit (CallRecognize request) ;;
  match recognize request with
  | inl e => throw e
  | inr response => ret response
  end.

Definition callGenerateContent (request : GenerateRequest)
  : Prog GenerateResponse :=
  emit (CallGenerateContent request) ;;
  match generateContent request with
  | inl e => throw e
  | inr response => ret response
  end.

Definition recognizeRequest (audio : jsval) : RecognizeRequest :=
  {| content := bufferFromBase64 (toString audio);
     config := {| encoding := lit "WEBM_OPUS";
                  sampleRateHertz := 48000;
                  languageCode := lit "en-US";
                  enableAutomaticPunctuation := true;
                  model := lit "latest_long" |} |}.

Definition generateRequest (codePrompt : jsstring) : GenerateRequest :=
  {| role := lit "user";
     text := codePrompt;
     maxOutputTokens := 2048;
     temperaturePercent := 10 |}.

(** [response.results.map(result => result.alternatives[0].transcript)
    .join('\n')] *)
Definition transcribe (response : RecognizeResponse) : Prog jsstring :=
  ts <- mapM (fun result =>
                a <- first (lit "transcript") (alternatives result) ;;
                ret (transcript a))
             (results response) ;;
  ret (join [NEWLINE] ts).

(** The body of the [try] block. *)
Definition pipeline (b : Body) : Prog Response :=
  if negb (truthy (audio b)) then
    ret (respond 400 (Failure noAudioMessage))
  else
    emit (ConsoleLog [lit "Processing speech to text..."]) ;;
    response <- callRecognize (recognizeRequest (audio b)) ;;
    transcription <- transcribe response ;;
    if Nat.eqb (length (trim transcription)) 0 then
      ret (respond 400 (Failure noSpeechMessage))
    else
      emit (ConsoleLog [lit "Transcript:"; transcription]) ;;
      emit (ConsoleLog [lit "Generating code with Gemini..."]) ;;
      let codePrompt := createCodePrompt transcription (language b) in
      result <- callGenerateContent (generateRequest codePrompt) ;;
      candidate <- first (lit "content") (candidates result) ;;
      generatedCode <- first (lit "text") (parts candidate) ;;
      let cleanCode := cleanGeneratedCode generatedCode in
      emit (ConsoleLog [lit "Code generated successfully"]) ;;
      ret (respond 200 (Success transcription cleanCode (language b))).

Definition processVoice (req : Request) : Prog Response :=
  if jsstring_eqb (method req) (lit "OPTIONS") then
    ret (respond 204 (Text []))
  else if negb (jsstring_eqb (method req) (lit "POST")) then
    ret (respond 405 (Text (lit "Method Not Allowed")))
  else
    tryCatch (pipeline (body req))
      (fun error =>
         emit (ConsoleError (lit "Error processing voice:") error) ;;
         ret (respond 500 (Failure failedMessage))).

(** A run from an empty record of events: the events and the response. *)
Definition run (req : Request) : list Event * (JsError + Response) :=
  processVoice req [].

End Handler.

(** ** Vocabulary of the properties *)

(** A fence marker: three backticks in a row. *)
Definition FENCE : jsstring := [BACKTICK; BACKTICK; BACKTICK].

(** [s] holds a fence marker somewhere. *)
Fixpoint hasFence (s : jsstring) : bool :=
  match s with
  | [] => false
  | _ :: r => startsFence s || hasFence r
  end.

(** [p] occurs in [s] as a run of neighbouring units. *)
Definition Occurs (p s : jsstring) : Prop :=
  exists pre post, s = pre ++ p ++ post.

(** [s.includes(p)], the test that decides [Occurs]. *)
Fixpoint includes (s p : jsstring) : bool :=
  startsWith s p ||
  match s with
  | [] => false
  | _ :: r => includes r p
  end.

(** Some entry of [unwantedPrefixes] passes the loop's test on [s]. *)
Definition startsWithPreface (s : jsstring) : bool :=
  existsb (hasPrefix s) unwantedPrefixes.

(** [out] is [s] with some runs taken out, each of them a [delim]; every
    other unit is kept, in place and in order. *)
Inductive Removes (delim : jsstring -> Prop) : jsstring -> jsstring -> Prop :=
| Removes_nil : Removes delim [] []
| Removes_keep (c : Z) (s out : jsstring) :
    Removes delim s out -> Removes delim (c :: s) (c :: out)
| Removes_drop (d s out : jsstring) :
    delim d -> Removes delim s out -> Removes delim (d ++ s) out.

(** A delimiter in the words of the specification: three backticks and,
    right after them, an optional language tag. *)
Definition fenceWithTag (d : jsstring) : Prop :=
  exists tag, d = FENCE ++ tag /\ forallb isWord tag = true.

(** A delimiter as the pattern of the source reads it: three backticks, the
    word units that follow, and one line feed when it comes next. *)
Definition fenceLine (d : jsstring) : Prop :=
  exists tag nl,
    d = FENCE ++ tag ++ nl /\ forallb isWord tag = true /\
    (nl = [] \/ nl = [NEWLINE]).

(** [s] has no white space at either end. *)
Definition trimmed (s : jsstring) : Prop :=
  trimStart s = s /\ trimStart (rev s) = rev s.

(** The lower-case form of an ASCII-only comparison: capitals A to Z become
    small, every other unit stays. *)
Definition asciiLower (u : Z) : Z := if between 65 90 u then u + 32 else u.

Definition isAscii (u : Z) : bool := u <? 128.

(** [text] starts with [phrase] up to the case of the letters A to Z: it
    opens with as many units as the phrase has, equal to the units of the
    phrase once capitals are made small on both sides; [rest] is what
    follows them. *)
Definition StartsWithUpToCase (text phrase rest : jsstring) : Prop :=
  exists opening,
    text = opening ++ rest /\ map asciiLower opening = map asciiLower phrase.

(** The first entry of [prefixes] that passes the loop's test on [cleaned]. *)
Definition firstPreface (prefixes : list jsstring) (cleaned : jsstring)
  : option jsstring :=
  find (hasPrefix cleaned) prefixes.

(** A string made of white space only (the empty string is one). *)
Definition blank (s : jsstring) : bool := forallb isWhiteSpace s.

(** Every recognition result comes with one alternative at least. *)
Definition hasFirstAlternatives (response : RecognizeResponse) : bool :=
  forallb (fun result => match alternatives result with
                         | [] => false
                         | _ :: _ => true
                         end) (results response).

(** The transcript of the first alternative of each result. *)
Definition firstTranscripts (response : RecognizeResponse) : list jsstring :=
  map (fun result => match alternatives result with
                     | [] => []
                     | a :: _ => transcript a
                     end) (results response).

(** The names of the properties an object literal inherits. *)
Definition inheritedKeys : list jsstring :=
  map fst objectPrototypeFunctions ++ [lit "__proto__"].

(** ** Sample services and requests *)

Definition unavailable : JsError :=
  {| errName := lit "Error"; errMessage := lit "14 UNAVAILABLE: upstream" |}.

Definition recognizeFails (_ : RecognizeRequest)
  : JsError + RecognizeResponse := inl unavailable.

(** Two results, the first alternative of each made of white space. *)
Definition recognizeSilence (_ : RecognizeRequest)
  : JsError + RecognizeResponse :=
  inr {| results :=
           [ {| alternatives := [ {| transcript := lit "  " |} ] |};
             {| alternatives := [ {| transcript := [] |};
                                  {| transcript := lit "hum" |} ] |} ] |}.

Definition recognizeSpeech (_ : RecognizeRequest)
  : JsError + RecognizeResponse :=
  inr {| results :=
           [ {| alternatives :=
                  [ {| transcript := lit "add two numbers" |} ] |} ] |}.

Definition generateFails (_ : GenerateRequest)
  : JsError + GenerateResponse := inl unavailable.

(** A reply in a fenced block behind a preface. *)
Definition generateFenced (_ : GenerateRequest)
  : JsError + GenerateResponse :=
  inr {| candidates :=
           [ {| parts := [ lit "Here is the code:" ++ [NEWLINE]
                           ++ lit "```python" ++ [NEWLINE]
                           ++ lit "def add(a, b):" ++ [NEWLINE]
                           ++ lit "    return a + b" ++ [NEWLINE]
                           ++ lit "```" ] |} ] |}.

Definition keepUnits (s : jsstring) : list Z := s.

Definition postRequest (a : jsval) : Request :=
  {| method := lit "POST";
     body := {| audio := a; language := VString (lit "python") |} |}.


(** ** Further vocabulary *)

(** [out] is [s] with some units left out, the others in their order. *)
Inductive Subsequence : jsstring -> jsstring -> Prop :=
| Subsequence_nil : Subsequence [] []
| Subsequence_keep (c : Z) (out s : jsstring) :
    Subsequence out s -> Subsequence (c :: out) (c :: s)
| Subsequence_skip (c : Z) (out s : jsstring) :
    Subsequence out s -> Subsequence out (c :: s).

Definition isCallRecognize (ev : Event) : bool :=
  match ev with
  | CallRecognize _ => true
  | _ => false
  end.

Definition isCallGenerateContent (ev : Event) : bool :=
  match ev with
  | CallGenerateContent _ => true
  | _ => false
  end.

(** A generation request answered with a usable text. *)
Definition firstText (result : GenerateResponse) : option jsstring :=
  match candidates result with
  | [] => None
  | candidate :: _ =>
      match parts candidate with
      | [] => None
      | generatedCode :: _ => Some generatedCode
      end
  end.

(** The property whose read fails on a generation answer without a
    candidate, or whose first candidate has no part. *)
Definition missingProperty (result : GenerateResponse) : jsstring :=
  match candidates result with
  | [] => lit "content"
  | _ :: _ => lit "text"
  end.

(** The runs of the handler, path by path: the events of a run and the
    response it ends with. *)
Inductive Path (bufferFromBase64 : jsstring -> list Z) (req : Request)
  : list Event -> Response -> Prop :=
| Path_preflight :
    jsstring_eqb (method req) (lit "OPTIONS") = true ->
    Path bufferFromBase64 req [] (respond 204 (Text []))
| Path_method :
    jsstring_eqb (method req) (lit "OPTIONS") = false ->
    jsstring_eqb (method req) (lit "POST") = false ->
    Path bufferFromBase64 req []
         (respond 405 (Text (lit "Method Not Allowed")))
| Path_no_audio :
    method req = lit "POST" ->
    truthy (audio (body req)) = false ->
    Path bufferFromBase64 req [] (respond 400 (Failure noAudioMessage))
| Path_speech_thrown (e : JsError) :
    method req = lit "POST" ->
    truthy (audio (body req)) = true ->
    Path bufferFromBase64 req
         [ ConsoleLog [lit "Processing speech to text..."];
           CallRecognize
             (recognizeRequest bufferFromBase64 (audio (body req)));
           ConsoleError (lit "Error processing voice:") e ]
         (respond 500 (Failure failedMessage))
| Path_no_speech :
    method req = lit "POST" ->
    truthy (audio (body req)) = true ->
    Path bufferFromBase64 req
         [ ConsoleLog [lit "Processing speech to text..."];
           CallRecognize
             (recognizeRequest bufferFromBase64 (audio (body req))) ]
         (respond 400 (Failure noSpeechMessage))
| Path_generation_thrown (transcription : jsstring) (e : JsError) :
    method req = lit "POST" ->
    truthy (audio (body req)) = true ->
    Path bufferFromBase64 req
         [ ConsoleLog [lit "Processing speech to text..."];
           CallRecognize
             (recognizeRequest bufferFromBase64 (audio (body req)));
           ConsoleLog [lit "Transcript:"; transcription];
           ConsoleLog [lit "Generating code with Gemini..."];
           CallGenerateContent
             (generateRequest
                (createCodePrompt transcription (language (body req))));
           ConsoleError (lit "Error processing voice:") e ]
         (respond 500 (Failure failedMessage))
| Path_success (transcription generatedCode : jsstring) :
    method req = lit "POST" ->
    truthy (audio (body req)) = true ->
    trim transcription <> [] ->
    Path bufferFromBase64 req
         [ ConsoleLog [lit "Processing speech to text..."];
           CallRecognize
             (recognizeRequest bufferFromBase64 (audio (body req)));
           ConsoleLog [lit "Transcript:"; transcription];
           ConsoleLog [lit "Generating code with Gemini..."];
           CallGenerateContent
             (generateRequest
                (createCodePrompt transcription (language (body req))));
           ConsoleLog [lit "Code generated successfully"] ]
         (respond 200
            (Success transcription (cleanGeneratedCode generatedCode)
                     (language (body req)))).

(** A recognition answer whose second result has no alternative, and a
    generation answer with no candidate. *)
Definition recognizeNoAlternative (_ : RecognizeRequest)
  : JsError + RecognizeResponse :=
  inr {| results :=
           [ {| alternatives := [ {| transcript := lit "add" |} ] |};
             {| alternatives := [] |} ] |}.

Definition generateNothing (_ : GenerateRequest)
  : JsError + GenerateResponse := inr {| candidates := [] |}.

(** ** The client: the component [App]

    The part of the component that is plain computation: the file name of
    a download, the payload of a data URL, the level of the audio meter and
    the exchange with the handler in [processAudio].  Recording, the
    clipboard and the editor are the browser's. *)

(** What [JSON.stringify({ audio, language })] writes and the handler reads
    back: an absent field stays absent, [null] stays [null], a string keeps
    its units. *)
Definition jsonBody (a l : jsval) : Body := {| audio := a; language := l |}.

Module Client.

Definition COMMA : Z := 44.

(** [s.split(sep)] for a separator of one unit. *)
Fixpoint split (sep : Z) (s : jsstring) : list jsstring :=
  match s with
  | [] => [[]]
  | c :: r =>
      if c =? sep then [] :: split sep r
      else match split sep r with
           | [] => [[c]]
           | piece :: pieces => (c :: piece) :: pieces
           end
  end.

(** [xs[i]]: [undefined] past the end. *)
Definition at_ (i : nat) (xs : list jsstring) : jsval :=
  match nth_error xs i with
  | Some s => VString s
  | None => VUndefined
  end.

(** [blobToBase64] resolves with [reader.result.split(',')[1]], where
    [reader.result] is the data URL the file reader made of the blob. *)
Definition blobToBase64 (readerResult : jsstring) : jsval :=
  at_ 1 (split COMMA readerResult).

(** The values of the options of the language selector. *)
Definition languageOptions : list jsstring :=
  [ lit "javascript"; lit "python"; lit "java"; lit "cpp"; lit "html";
    lit "css" ].

(** The own properties of the object literal [extensions]. *)
Definition extensions : list (jsstring * jsstring) :=
  [ (lit "javascript", lit "js");
    (lit "python", lit "py");
    (lit "java", lit "java");
    (lit "cpp", lit "cpp");
    (lit "html", lit "html");
    (lit "css", lit "css") ].

(** [extensions[language]]: own properties first, then the prototype. *)
Definition getExtension (language : jsstring) : propValue :=
  match assoc language extensions with
  | Some s => POwn s
  | None =>
      match assoc language objectPrototypeFunctions with
      | Some name => PFunction name
      | None =>
          if jsstring_eqb language (lit "__proto__") then PObjectPrototype
          else PUndefined
      end
  end.

(** [`verbalize_output.${extensions[language] || 'txt'}`] *)
Definition downloadName (language : jsstring) : jsstring :=
  let v := getExtension language in
  lit "verbalize_output."
  ++ propToString (if propTruthy v then v else POwn (lit "txt")).

(** What the client does to the page and the network. *)
Inductive Effect : Type :=
| SetIsProcessing (b : bool)
| SetTranscript (v : jsval)
| SetGeneratedCode (v : jsval)
| FetchCall (request : Request)
| ToastSuccess (message : jsstring)
| ToastError (message : jsstring)
| ConsoleErr (label : jsstring) (error : JsError)
| CreateObjectURL (blobPart : jsval) (mimeType : jsstring)
| ClickDownload (download : jsstring)
| RevokeObjectURL.

Definition downloadCode (generatedCode : jsval) (language : jsstring)
  : list Effect :=
  [ CreateObjectURL generatedCode (lit "text/plain");
    ClickDownload (downloadName language);
    RevokeObjectURL;
    ToastSuccess (lit "Code downloaded!") ].

(** The object [response.json()] resolves with, as far as [processAudio]
    reads it. *)
Record ResultObject : Type :=
  { success : bool; transcript : jsval; code : jsval; error : jsval }.

(** How [fetch] followed by [response.json()] ends: one of the two promises
    rejects, or the body parses. *)
Inductive FetchOutcome : Type :=
| Rejected (e : JsError)
| Resolved (result : ResultObject).

(** [processAudio], from the data URL of the recorded blob and the
    [language] its closure holds. *)
Definition processAudio (fetch : Request -> FetchOutcome)
    (readerResult : jsstring) (language : jsstring) : list Effect :=
  let base64Audio := blobToBase64 readerResult in
  let request :=
    {| method := lit "POST";
       body := jsonBody base64Audio (VString language) |} in
  [SetIsProcessing true; FetchCall request]
  ++ match fetch request with
     | Resolved result =>
         if success result then
           [ SetTranscript (transcript result);
             SetGeneratedCode (code result);
             ToastSuccess (lit "Code generated successfully!") ]
         else
           [ ToastError (if truthy (error result)
                         then toString (error result)
                         else lit "Failed to process audio") ]
     | Rejected e =>
         [ ConsoleErr (lit "Error processing audio:") e;
           ToastError
             (lit "Failed to process your request. Please try again.") ]
     end
  ++ [SetIsProcessing false].

(** The state of the component; [shownTranscript] is the state variable
    [transcript]. *)
Record State : Type :=
  { isRecording : bool;
    isProcessing : bool;
    shownTranscript : jsval;
    generatedCode : jsval;
    language : jsstring;
    audioLevel : Q }.

Definition applyEffect (st : State) (eff : Effect) : State :=
  match eff with
  | SetIsProcessing b =>
      {| isRecording := isRecording st; isProcessing := b;
         shownTranscript := shownTranscript st;
         generatedCode := generatedCode st; language := language st;
         audioLevel := audioLevel st |}
  | SetTranscript v =>
      {| isRecording := isRecording st; isProcessing := isProcessing st;
         shownTranscript := v;
         generatedCode := generatedCode st; language := language st;
         audioLevel := audioLevel st |}
  | SetGeneratedCode v =>
      {| isRecording := isRecording st; isProcessing := isProcessing st;
         shownTranscript := shownTranscript st;
         generatedCode := v; language := language st;
         audioLevel := audioLevel st |}
  | _ => st
  end.

Definition applyEffects (effects : list Effect) (st : State) : State :=
  fold_left applyEffect effects st.

(** The answer of the handler as [fetch] and [response.json()] hand it to
    the client: a failure or success object parses; the two plain texts the
    handler sends are no JSON, and parsing them rejects with the syntax
    error of the browser. *)
Definition outcomeOf (parseError : jsstring -> JsError)
    (answer : list Event * (JsError + Response)) : FetchOutcome :=
  match snd answer with
  | inl e => Rejected e
  | inr response =>
      match payload response with
      | Text s => Rejected (parseError s)
      | Failure message =>
          Resolved {| success := false; transcript := VUndefined;
                      code := VUndefined; error := VString message |}
      | Success t c _ =>
          Resolved {| success := true; transcript := VString t;
                      code := VString c; error := VUndefined |}
      end
  end.

(** The meter: what [updateAudioLevel] hands to [setAudioLevel], that is
    [dataArray.reduce((sum, value) => sum + value, 0) / dataArray.length],
    then [Math.min(average / 128, 1)].  The analyser has
    [fftSize] 256, so the array holds 128 bytes: every number below is an
    integer below 2^53 over a power of two, which the doubles of JavaScript
    hold exactly, and the rational arithmetic here is theirs. *)
Definition average (dataArray : list Z) : Q :=
  Qdiv (inject_Z (fold_left Z.add dataArray 0))
       (inject_Z (Z.of_nat (length dataArray))).

Definition updateAudioLevel (dataArray : list Z) : Q :=
  Qmin (Qdiv (average dataArray) (inject_Z 128)) (inject_Z 1).

(** [Math.max(audioLevel * 100, 5)] and [120 - (audioLevel * 60)] of the
    style of the bar. *)
Definition barHeight (level : Q) : Q :=
  Qmax (Qmult level (inject_Z 100)) (inject_Z 5).

Definition barHue (level : Q) : Q :=
  Qminus (inject_Z 120) (Qmult level (inject_Z 60)).

End Client.

(** The handler behind [fetch]: the request reaches [processVoice] and its
    answer comes back through [response.json()]. *)
Definition handlerFetch
    (recognize : RecognizeRequest -> JsError + RecognizeResponse)
    (generateContent : GenerateRequest -> JsError + GenerateResponse)
    (bufferFromBase64 : jsstring -> list Z)
    (parseError : jsstring -> JsError)
    (request : Request) : Client.FetchOutcome :=
  Client.outcomeOf parseError
    (run recognize generateContent bufferFromBase64 request).

(** 128 bytes at half of the scale. *)
Definition halfLevelBytes : list Z := repeat 64 128.

(** * Properties *)

(** ** Stage 1: the fence pattern *)

Lemma matchFence_true (s : jsstring) :
  startsFence s = true ->
  matchFence s = Some (skipNewline (skipWord (skipn 3 s))).
Proof. unfold matchFence. intros ->. reflexivity. Qed.

Lemma matchFence_false (s : jsstring) :
  startsFence s = false -> matchFence s = None.
Proof. unfold matchFence. intros ->. reflexivity. Qed.

Lemma removeCodeFences_skip (s : jsstring) :
  startsFence s = true ->
  removeCodeFences s = removeCodeFences (skipNewline (skipWord (skipn 3 s))).
Proof.
  intros Hs. apply matchFence_true in Hs.
  funelim (removeCodeFences s); try discriminate; congruence.
Qed.

Lemma removeCodeFences_keep (c : Z) (r : jsstring) :
  startsFence (c :: r) = false ->
  removeCodeFences (c :: r) = c :: removeCodeFences r.
Proof.
  intros Hs. apply matchFence_false in Hs.
  funelim (removeCodeFences (c :: r)); congruence.
Qed.

Lemma startsFence_first (a : Z) (x : jsstring) :
  (a =? BACKTICK) = false -> startsFence (a :: x) = false.
Proof.
  destruct x as [|b [|c x]]; cbn [startsFence]; intros H;
    try rewrite H; reflexivity.
Qed.

Lemma startsFence_second (a b : Z) (x : jsstring) :
  (b =? BACKTICK) = false -> startsFence (a :: b :: x) = false.
Proof.
  destruct x as [|c x]; cbn [startsFence]; intros H;
    [reflexivity | now rewrite H, andb_false_r].
Qed.

Lemma startsFence_third (a b c : Z) (x : jsstring) :
  (c =? BACKTICK) = false -> startsFence (a :: b :: c :: x) = false.
Proof. cbn [startsFence]. intros ->. now rewrite andb_false_r. Qed.

Lemma startsFence_inv (s : jsstring) :
  startsFence s = true -> exists r, s = FENCE ++ r.
Proof.
  destruct s as [|a [|b [|c r]]]; cbn [startsFence]; try discriminate.
  intros H. apply andb_prop in H as [H Hc]. apply andb_prop in H as [Ha Hb].
  apply Z.eqb_eq in Ha, Hb, Hc. subst. now exists r.
Qed.

(** A unit that is kept where no fence starts is not followed, in the
    output, by what would complete a fence. *)
Lemma startsFence_removeCodeFences (s : jsstring) :
  startsFence s = false -> startsFence (removeCodeFences s) = false.
Proof.
  intros H.
  destruct s as [|a r]; [now simp removeCodeFences|].
  rewrite (removeCodeFences_keep a r H).
  destruct (a =? BACKTICK) eqn:Ea; [|now apply startsFence_first].
  destruct r as [|b r]; [now simp removeCodeFences|].
  destruct (b =? BACKTICK) eqn:Eb.
  - destruct r as [|c r].
    + rewrite removeCodeFences_keep by reflexivity. now simp removeCodeFences.
    + assert (Ec : (c =? BACKTICK) = false).
      { cbn [startsFence] in H. rewrite Ea, Eb in H. exact H. }
      rewrite removeCodeFences_keep by now apply startsFence_second.
      rewrite removeCodeFences_keep by now apply startsFence_first.
      now apply startsFence_third.
  - rewrite removeCodeFences_keep by now apply startsFence_first.
    now apply startsFence_second.
Qed.

Lemma jsstring_length_ind (P : jsstring -> Prop) :
  (forall s, (forall t, (length t < length s)%nat -> P t) -> P s) ->
  forall s, P s.
Proof.
  intros step s.
  assert (H : forall n t, (length t < n)%nat -> P t).
  { induction n as [|n IH]; intros t Ht; [lia|].
    apply step. intros u Hu. apply IH. lia. }
  apply (H (S (length s))). lia.
Qed.

Lemma removeCodeFences_hasFence (s : jsstring) :
  hasFence (removeCodeFences s) = false.
Proof.
  induction s as [s IH] using jsstring_length_ind.
  destruct s as [|c r]; [now simp removeCodeFences|].
  destruct (startsFence (c :: r)) eqn:Hs.
  - rewrite (removeCodeFences_skip _ Hs). apply IH.
    pose proof (matchFence_length _ _ (matchFence_true _ Hs)). lia.
  - pose proof (startsFence_removeCodeFences _ Hs) as Hout.
    rewrite (removeCodeFences_keep _ _ Hs) in *.
    simpl hasFence. fold (startsFence (c :: removeCodeFences r)).
    rewrite Hout. simpl. apply IH. simpl. lia.
Qed.

Lemma removeCodeFences_id (s : jsstring) :
  hasFence s = false -> removeCodeFences s = s.
Proof.
  induction s as [|c r IH]; [now simp removeCodeFences|].
  intros H. change (startsFence (c :: r) || hasFence r = false) in H.
  apply orb_false_elim in H as [Hs Hr].
  rewrite (removeCodeFences_keep _ _ Hs). f_equal. now apply IH.
Qed.

(** [hasFence] decides the occurrence of a fence marker. *)
Lemma hasFence_Occurs (s : jsstring) :
  hasFence s = true <-> Occurs FENCE s.
Proof.
  split.
  - induction s as [|c r IH]; [discriminate|].
    intros H. change (startsFence (c :: r) || hasFence r = true) in H.
    apply orb_prop in H as [H|H].
    + apply startsFence_inv in H as [t ->]. now exists [], t.
    + destruct (IH H) as (pre & post & ->). now exists (c :: pre), post.
  - intros (pre & post & ->).
    induction pre as [|c pre IH]; [reflexivity|].
    change (startsFence (c :: pre ++ FENCE ++ post)
            || hasFence (pre ++ FENCE ++ post) = true).
    rewrite IH. apply orb_true_r.
Qed.

Lemma hasFence_segment (a b c : jsstring) :
  hasFence (a ++ b ++ c) = false -> hasFence b = false.
Proof.
  intros H. destruct (hasFence b) eqn:Hb; [|reflexivity].
  apply hasFence_Occurs in Hb as (pre & post & ->).
  assert (Ht : hasFence (a ++ (pre ++ FENCE ++ post) ++ c) = true).
  { apply hasFence_Occurs. exists (a ++ pre), (post ++ c).
    now rewrite <- !app_assoc. }
  congruence.
Qed.

(** ** Trimming *)

Lemma trimStart_split (s : jsstring) :
  exists ws, s = ws ++ trimStart s /\ forallb isWhiteSpace ws = true.
Proof.
  induction s as [|c r (ws & Hr & Hws)]; [now exists []|].
  simpl. destruct (isWhiteSpace c) eqn:Hc.
  - exists (c :: ws). simpl. rewrite Hc, Hws. now rewrite <- Hr.
  - now exists [].
Qed.

Lemma trimStart_head (s : jsstring) (c : Z) (r : jsstring) :
  trimStart s = c :: r -> isWhiteSpace c = false.
Proof.
  induction s as [|a s IH]; [discriminate|].
  simpl. destruct (isWhiteSpace a) eqn:Ha; [exact IH|].
  now intros [= <- _].
Qed.

Lemma trimStart_fixed (s : jsstring) :
  match s with [] => True | c :: _ => isWhiteSpace c = false end ->
  trimStart s = s.
Proof. destruct s as [|c r]; [reflexivity|]. simpl. now intros ->. Qed.

Lemma trimStart_idem (s : jsstring) : trimStart (trimStart s) = trimStart s.
Proof.
  apply trimStart_fixed. destruct (trimStart s) as [|c r] eqn:E; [exact I|].
  exact (trimStart_head _ _ _ E).
Qed.

Lemma forallb_rev_true (f : Z -> bool) (l : jsstring) :
  forallb f l = true -> forallb f (rev l) = true.
Proof.
  rewrite !forallb_forall. intros H x Hx. apply H. now apply in_rev.
Qed.

Lemma trimEnd_split (s : jsstring) :
  exists ws, s = trimEnd s ++ ws /\ forallb isWhiteSpace ws = true.
Proof.
  destruct (trimStart_split (rev s)) as (ws & H & Hws).
  exists (rev ws). split.
  - unfold trimEnd. rewrite <- rev_app_distr, <- H. now rewrite rev_involutive.
  - now apply forallb_rev_true.
Qed.

(** [trim] cuts white space off both ends and nothing else. *)
Lemma trim_split (s : jsstring) :
  exists before after,
    s = before ++ trim s ++ after /\
    forallb isWhiteSpace before = true /\ forallb isWhiteSpace after = true.
Proof.
  destruct (trimStart_split s) as (w1 & H1 & Hw1).
  destruct (trimEnd_split (trimStart s)) as (w2 & H2 & Hw2).
  exists w1, w2. unfold trim. now rewrite <- H2.
Qed.

Lemma trim_trimmed (s : jsstring) : trimmed (trim s).
Proof.
  unfold trimmed, trim, trimEnd. split.
  - apply trimStart_fixed.
    destruct (rev (trimStart (rev (trimStart s)))) as [|c r] eqn:E; [exact I|].
    destruct (trimEnd_split (trimStart s)) as (ws & H & _).
    unfold trimEnd in H. rewrite E in H.
    exact (trimStart_head _ _ _ H).
  - rewrite rev_involutive. apply trimStart_idem.
Qed.

Lemma trimmed_trim (s : jsstring) : trimmed s -> trim s = s.
Proof.
  intros [H1 H2]. unfold trim, trimEnd. rewrite H1, H2. apply rev_involutive.
Qed.

Lemma trim_idem (s : jsstring) : trim (trim s) = trim s.
Proof. apply trimmed_trim, trim_trimmed. Qed.

Lemma trim_length (s : jsstring) : (length (trim s) <= length s)%nat.
Proof.
  destruct (trim_split s) as (a & b & H & _).
  rewrite H at 2. rewrite !length_app. lia.
Qed.

Lemma trim_hasFence (s : jsstring) :
  hasFence s = false -> hasFence (trim s) = false.
Proof.
  destruct (trim_split s) as (a & b & H & _). intros Hs. rewrite H in Hs.
  exact (hasFence_segment _ _ _ Hs).
Qed.

Lemma substring_hasFence (n : nat) (s : jsstring) :
  hasFence s = false -> hasFence (substring n s) = false.
Proof.
  intros Hs. rewrite <- (firstn_skipn n s), <- (app_nil_r (skipn n s)) in Hs.
  exact (hasFence_segment _ _ _ Hs).
Qed.

(** ** The loop over the prefaces *)

Lemma removeUnwantedPrefix_find
    (prefixes : list jsstring) (cleaned : jsstring) :
  removeUnwantedPrefix prefixes cleaned =
  match firstPreface prefixes cleaned with
  | Some prefix => trim (substring (length prefix) cleaned)
  | None => cleaned
  end.
Proof.
  unfold firstPreface.
  induction prefixes as [|p rest IH]; [reflexivity|].
  simpl. destruct (hasPrefix cleaned p); [reflexivity | exact IH].
Qed.

Lemma firstPreface_None (prefixes : list jsstring) (cleaned : jsstring) :
  firstPreface prefixes cleaned = None <->
  existsb (hasPrefix cleaned) prefixes = false.
Proof.
  unfold firstPreface.
  induction prefixes as [|p rest IH]; [now split|].
  simpl. destruct (hasPrefix cleaned p); simpl; [now split | exact IH].
Qed.

Lemma removeUnwantedPrefix_trimmed (prefixes : list jsstring) (s : jsstring) :
  trimmed s -> trimmed (removeUnwantedPrefix prefixes s).
Proof.
  intros Hs. rewrite removeUnwantedPrefix_find.
  destruct (firstPreface prefixes s); [apply trim_trimmed | exact Hs].
Qed.

Lemma removeUnwantedPrefix_hasFence (prefixes : list jsstring) (s : jsstring) :
  hasFence s = false -> hasFence (removeUnwantedPrefix prefixes s) = false.
Proof.
  intros Hs. rewrite removeUnwantedPrefix_find.
  destruct (firstPreface prefixes s); [|exact Hs].
  now apply trim_hasFence, substring_hasFence.
Qed.

Lemma cleanGeneratedCode_trimmed (code : jsstring) :
  trimmed (cleanGeneratedCode code).
Proof. apply removeUnwantedPrefix_trimmed, trim_trimmed. Qed.

(** Every lower-cased preface is plain ASCII without capitals, holds neither
    "k" nor U+0307, and does not end in "i". *)
Definition plainPhrase (q : jsstring) : bool :=
  forallb (fun u => negb (u =? 775) && negb (u =? 107)
                    && negb (between 65 90 u)) q
  && negb (last q 0 =? 105).

Lemma plainPhrase_tail (a : Z) (q : jsstring) :
  plainPhrase (a :: q) = true -> plainPhrase q = true.
Proof.
  unfold plainPhrase. intros H. apply andb_prop in H as [H1 H2].
  simpl in H1. apply andb_prop in H1 as [_ H1]. rewrite H1. simpl.
  destruct q as [|b q]; [reflexivity | exact H2].
Qed.

(** When the lower-cased text starts with a plain phrase, the text itself
    starts with as many units, equal to the phrase up to ASCII case: the
    length of what is cut off is the length of what matched. *)
Lemma startsWith_toLowerCase (q c : jsstring) :
  plainPhrase q = true ->
  startsWith (toLowerCase c) q = true ->
  exists h t, c = h ++ t /\ length h = length q /\ map asciiLower h = q.
Proof.
  revert c. induction q as [|a q IH]; intros c Hq Hs.
  - now exists [], c.
  - destruct c as [|u c]; [discriminate|].
    pose proof (plainPhrase_tail _ _ Hq) as Hq'.
    unfold plainPhrase in Hq. apply andb_prop in Hq as [Hall Hlast].
    simpl in Hall. apply andb_prop in Hall as [Ha _].
    apply andb_prop in Ha as [Ha Hcap]. apply andb_prop in Ha as [Ha775 Ha107].
    unfold toLowerCase in Hs. cbn [flat_map] in Hs.
    change (flat_map lowerUnit c) with (toLowerCase c) in Hs.
    unfold lowerUnit in Hs.
    assert (Hstep : forall v,
               (v =? a) && startsWith (toLowerCase c) q = true ->
               asciiLower u = v ->
               exists h t, u :: c = h ++ t /\
                 length h = length (a :: q) /\ map asciiLower h = a :: q).
    { intros v Hv Hu. apply andb_prop in Hv as [Hv Hrest].
      apply Z.eqb_eq in Hv. destruct (IH c Hq' Hrest) as (h & t & -> & Hl & Hm).
      exists (u :: h), t. simpl. rewrite Hl, Hm, Hu, Hv. auto. }
    destruct (between 65 90 u) eqn:Hu.
    + apply (Hstep (u + 32)); [exact Hs|]. unfold asciiLower. now rewrite Hu.
    + destruct (u =? 304) eqn:H304.
      * cbn [app startsWith] in Hs. apply andb_prop in Hs as [Hi Hs].
        apply Z.eqb_eq in Hi. subst a.
        destruct q as [|b q]; [discriminate|].
        cbn [startsWith] in Hs. apply andb_prop in Hs as [Hb _].
        apply Z.eqb_eq in Hb. subst b.
        unfold plainPhrase in Hq'. simpl in Hq'. discriminate.
      * destruct (u =? 8490) eqn:H8490.
        -- cbn [app startsWith] in Hs. apply andb_prop in Hs as [Hk _].
           apply Z.eqb_eq in Hk. subst a. discriminate.
        -- apply (Hstep u); [exact Hs|]. unfold asciiLower. now rewrite Hu.
Qed.

Lemma unwantedPrefixes_plain :
  forallb (fun p => plainPhrase (toLowerCase p)
                    && jsstring_eqb (toLowerCase p) (map asciiLower p)
                    && negb (Nat.eqb (length p) 0)) unwantedPrefixes = true.
Proof. vm_compute. reflexivity. Qed.

Lemma jsstring_eqb_eq (a b : jsstring) : jsstring_eqb a b = true <-> a = b.
Proof.
  revert b. induction a as [|x a IH]; intros [|y b]; simpl; split;
    try discriminate; try reflexivity.
  - intros H. apply andb_prop in H as [Hx Hab].
    apply Z.eqb_eq in Hx. apply IH in Hab. now subst.
  - intros [= -> ->]. rewrite Z.eqb_refl. simpl. now apply IH.
Qed.

(** What the loop's test means for a preface of the list. *)
Lemma hasPrefix_cut (cleaned prefix : jsstring) :
  In prefix unwantedPrefixes ->
  hasPrefix cleaned prefix = true ->
  exists h t,
    cleaned = h ++ t /\ length h = length prefix /\
    map asciiLower h = map asciiLower prefix /\
    substring (length prefix) cleaned = t /\ (0 < length prefix)%nat.
Proof.
  intros Hin Hp.
  pose proof unwantedPrefixes_plain as Hall.
  rewrite forallb_forall in Hall. specialize (Hall _ Hin).
  apply andb_prop in Hall as [Hall Hlen].
  apply andb_prop in Hall as [Hplain Heq].
  apply jsstring_eqb_eq in Heq.
  destruct (startsWith_toLowerCase _ _ Hplain Hp) as (h & t & -> & Hl & Hm).
  exists h, t. rewrite Heq in Hm, Hl. rewrite length_map in Hl.
  repeat split; try assumption.
  - unfold substring. rewrite <- Hl. rewrite skipn_app, skipn_all, Nat.sub_diag.
    reflexivity.
  - destruct (length prefix); [discriminate | lia].
Qed.

(** ** The test of the loop is the match up to case *)

Lemma startsWith_app (x y : jsstring) : startsWith (x ++ y) x = true.
Proof.
  induction x as [|c x IH]; [reflexivity|].
  cbn [app startsWith]. now rewrite Z.eqb_refl, IH.
Qed.

Lemma startsWith_split (s p : jsstring) :
  startsWith s p = true -> exists post, s = p ++ post.
Proof.
  revert s. induction p as [|b p IH]; intros s H; [now exists s|].
  destruct s as [|a s]; [discriminate|].
  cbn [startsWith] in H. apply andb_prop in H as [Hab Hs].
  apply Z.eqb_eq in Hab. destruct (IH _ Hs) as [post ->]. subst.
  now exists post.
Qed.

Lemma startsWith_comparable (a b x y : jsstring) :
  a ++ x = b ++ y -> startsWith a b = true \/ startsWith b a = true.
Proof.
  revert b. induction a as [|u a IH]; intros b H; [now right|].
  destruct b as [|v b]; [now left|].
  cbn [app] in H. injection H as <- H.
  cbn [startsWith]. rewrite Z.eqb_refl. cbn [andb]. exact (IH _ H).
Qed.

Lemma toLowerCase_app (x y : jsstring) :
  toLowerCase (x ++ y) = toLowerCase x ++ toLowerCase y.
Proof. unfold toLowerCase. apply flat_map_app. Qed.

(** On units whose ASCII lower-case form is ASCII, lower-casing is the
    ASCII one. *)
Lemma toLowerCase_ascii (h : jsstring) :
  forallb isAscii (map asciiLower h) = true ->
  toLowerCase h = map asciiLower h.
Proof.
  induction h as [|u h IH]; [reflexivity|].
  cbn [map forallb]. intros H. apply andb_prop in H as [Hu Hh].
  unfold toLowerCase. cbn [flat_map].
  change (flat_map lowerUnit h) with (toLowerCase h). rewrite (IH Hh).
  unfold asciiLower in *. unfold lowerUnit.
  destruct (between 65 90 u); [reflexivity|].
  unfold isAscii in Hu. apply Z.ltb_lt in Hu.
  assert (E1 : (u =? 304) = false) by (apply Z.eqb_neq; lia).
  assert (E2 : (u =? 8490) = false) by (apply Z.eqb_neq; lia).
  now rewrite E1, E2.
Qed.

Lemma unwantedPrefixes_ascii :
  forallb (fun p => forallb isAscii (map asciiLower p)) unwantedPrefixes
    = true.
Proof. vm_compute. reflexivity. Qed.

(** No lower-cased preface is the beginning of another one. *)
Lemma unwantedPrefixes_apart :
  forallb (fun p =>
             forallb (fun p' =>
                        implb (startsWith (toLowerCase p) (toLowerCase p'))
                              (jsstring_eqb p p'))
                     unwantedPrefixes)
          unwantedPrefixes = true.
Proof. vm_compute. reflexivity. Qed.

(** A text that starts with a preface up to case passes the test of the
    loop for that preface. *)
Lemma hasPrefix_upToCase (cleaned prefix rest : jsstring) :
  In prefix unwantedPrefixes ->
  StartsWithUpToCase cleaned prefix rest ->
  hasPrefix cleaned prefix = true.
Proof.
  intros Hin (opening & -> & Hm).
  pose proof unwantedPrefixes_ascii as Hascii.
  rewrite forallb_forall in Hascii. specialize (Hascii _ Hin).
  unfold hasPrefix.
  rewrite toLowerCase_app, (toLowerCase_ascii prefix Hascii).
  rewrite <- Hm in Hascii. rewrite (toLowerCase_ascii opening Hascii), Hm.
  apply startsWith_app.
Qed.

(** A text passes the test of the loop for one preface at most. *)
Lemma hasPrefix_unique (cleaned p p' : jsstring) :
  In p unwantedPrefixes -> In p' unwantedPrefixes ->
  hasPrefix cleaned p = true -> hasPrefix cleaned p' = true -> p = p'.
Proof.
  intros Hin Hin' Hp Hp'. unfold hasPrefix in *.
  destruct (startsWith_split _ _ Hp) as [x Hx].
  destruct (startsWith_split _ _ Hp') as [y Hy].
  pose proof unwantedPrefixes_apart as Hall.
  rewrite forallb_forall in Hall.
  rewrite Hx in Hy.
  destruct (startsWith_comparable _ _ _ _ Hy) as [H|H].
  - pose proof (Hall _ Hin) as Hrow. rewrite forallb_forall in Hrow.
    specialize (Hrow _ Hin'). rewrite H in Hrow.
    now apply jsstring_eqb_eq in Hrow.
  - pose proof (Hall _ Hin') as Hrow. rewrite forallb_forall in Hrow.
    specialize (Hrow _ Hin). rewrite H in Hrow.
    apply jsstring_eqb_eq in Hrow. now symmetry.
Qed.

(** The loop cuts the preface a text starts with up to case, and only
    then cuts anything. *)
Lemma removeUnwantedPrefix_upToCase (cleaned prefix rest : jsstring) :
  In prefix unwantedPrefixes ->
  StartsWithUpToCase cleaned prefix rest ->
  removeUnwantedPrefix unwantedPrefixes cleaned = trim rest.
Proof.
  intros Hin Hstart.
  pose proof (hasPrefix_upToCase _ _ _ Hin Hstart) as Hp.
  rewrite removeUnwantedPrefix_find.
  destruct (firstPreface unwantedPrefixes cleaned) as [p'|] eqn:E.
  - apply find_some in E as [Hin' Hp'].
    rewrite (hasPrefix_unique _ _ _ Hin' Hin Hp' Hp).
    destruct Hstart as (opening & -> & Hm).
    assert (Hl : length opening = length prefix).
    { rewrite <- (length_map asciiLower opening), Hm. apply length_map. }
    unfold substring. rewrite <- Hl.
    now rewrite skipn_app, skipn_all, Nat.sub_diag.
  - apply firstPreface_None in E.
    assert (Hex : existsb (hasPrefix cleaned) unwantedPrefixes = true).
    { apply existsb_exists. now exists prefix. }
    congruence.
Qed.

Lemma removeUnwantedPrefix_no_preface (cleaned : jsstring) :
  (forall prefix rest,
     In prefix unwantedPrefixes ->
     ~ StartsWithUpToCase cleaned prefix rest) ->
  removeUnwantedPrefix unwantedPrefixes cleaned = cleaned.
Proof.
  intros Hnone. rewrite removeUnwantedPrefix_find.
  destruct (firstPreface unwantedPrefixes cleaned) as [p|] eqn:E;
    [|reflexivity].
  apply find_some in E as [Hin Hp].
  destruct (hasPrefix_cut _ _ Hin Hp) as (h & t & Hc & _ & Hm & _).
  exfalso. apply (Hnone p t Hin). now exists h.
Qed.

(** ** The sanitizer as a whole *)

Lemma cleanGeneratedCode_hasFence (code : jsstring) :
  hasFence (cleanGeneratedCode code) = false.
Proof.
  apply removeUnwantedPrefix_hasFence, trim_hasFence, removeCodeFences_hasFence.
Qed.

(** On its own output the sanitizer only runs the loop over the prefaces:
    stage 1 and the trimming find nothing left to do. *)
Lemma cleanGeneratedCode_again (code : jsstring) :
  cleanGeneratedCode (cleanGeneratedCode code) =
  removeUnwantedPrefix unwantedPrefixes (cleanGeneratedCode code).
Proof.
  unfold cleanGeneratedCode at 1.
  rewrite (removeCodeFences_id _ (cleanGeneratedCode_hasFence code)).
  now rewrite (trimmed_trim _ (cleanGeneratedCode_trimmed code)).
Qed.

Lemma removeUnwantedPrefix_shorter (s : jsstring) :
  startsWithPreface s = true ->
  (length (removeUnwantedPrefix unwantedPrefixes s) < length s)%nat.
Proof.
  intros H. rewrite removeUnwantedPrefix_find.
  destruct (firstPreface unwantedPrefixes s) as [p|] eqn:E.
  - apply find_some in E as [Hin Hp].
    destruct (hasPrefix_cut _ _ Hin Hp) as (h & t & -> & Hl & _ & -> & Hpos).
    pose proof (trim_length t). rewrite length_app. lia.
  - apply firstPreface_None in E. unfold startsWithPreface in H. congruence.
Qed.

(** C1, as amended: a second run of the sanitizer on its own output changes
    nothing exactly when that output does not itself start, up to case, with
    one of the known prefaces. *)
Theorem cleanGeneratedCode_idempotent_iff (x : jsstring) :
  cleanGeneratedCode (cleanGeneratedCode x) = cleanGeneratedCode x <->
  startsWithPreface (cleanGeneratedCode x) = false.
Proof.
  rewrite cleanGeneratedCode_again. split.
  - intros H. destruct (startsWithPreface (cleanGeneratedCode x)) eqn:E;
      [|reflexivity].
    apply removeUnwantedPrefix_shorter in E. rewrite H in E. lia.
  - intros H. rewrite removeUnwantedPrefix_find.
    apply firstPreface_None in H. now rewrite H.
Qed.

(** C1, as stated, fails: a reply that opens with two prefaces loses one of
    them in the first run and the other in the second. *)
Lemma cleanGeneratedCode_not_idempotent :
  cleanGeneratedCode (cleanGeneratedCode
    (lit "Here's the code: The code is: x = 1")) <>
  cleanGeneratedCode (lit "Here's the code: The code is: x = 1").
Proof. vm_compute. discriminate. Qed.

(** C3: after stage 1 and the trimming, a text that starts, up to the case
    of its letters, with one of the five known prefaces has exactly that
    preface cut off, as many units as the preface has, and the rest is
    trimmed again; a text that starts with none of them is returned as it
    is.  The loop's own test picks the same preface.  One removal at most:
    a second preface behind the first one stays. *)
Theorem cleanGeneratedCode_preface :
  (forall code prefix rest,
     In prefix unwantedPrefixes ->
     StartsWithUpToCase (trim (removeCodeFences code)) prefix rest ->
     cleanGeneratedCode code = trim rest) /\
  (forall code,
     (forall prefix rest,
        In prefix unwantedPrefixes ->
        ~ StartsWithUpToCase (trim (removeCodeFences code)) prefix rest) ->
     cleanGeneratedCode code = trim (removeCodeFences code)) /\
  (forall code,
     let cleaned := trim (removeCodeFences code) in
     match firstPreface unwantedPrefixes cleaned with
     | Some prefix =>
         exists h t,
           cleaned = h ++ t /\ length h = length prefix /\
           map asciiLower h = map asciiLower prefix /\
           cleanGeneratedCode code = trim t
     | None => cleanGeneratedCode code = cleaned
     end) /\
  length unwantedPrefixes = 5%nat /\
  cleanGeneratedCode (lit "Here's the code:" ++ [NEWLINE] ++ lit "  foo()")
    = lit "foo()" /\
  cleanGeneratedCode (lit "HERE IS THE CODE: bar()") = lit "bar()" /\
  cleanGeneratedCode (lit "here's YOUR code: baz()") = lit "baz()" /\
  cleanGeneratedCode (lit "Here's the code: The code is: x = 1")
    = lit "The code is: x = 1".
Proof.
  split; [|split; [|split; [|repeat split; vm_compute; reflexivity]]].
  - intros code prefix rest Hin Hstart. unfold cleanGeneratedCode.
    now apply removeUnwantedPrefix_upToCase with (prefix := prefix).
  - intros code Hnone. unfold cleanGeneratedCode.
    now apply removeUnwantedPrefix_no_preface.
  - intros code cleaned. unfold cleanGeneratedCode. fold cleaned.
    rewrite removeUnwantedPrefix_find.
    destruct (firstPreface unwantedPrefixes cleaned) as [p|] eqn:E;
      [|reflexivity].
    apply find_some in E as [Hin Hp].
    destruct (hasPrefix_cut _ _ Hin Hp) as (h & t & Hc & Hl & Hm & Hsub & _).
    exists h, t. rewrite Hsub. auto.
Qed.

(** C4: the output of the sanitizer never holds three backticks in a row,
    and a fenced block with a language tag comes out as its bare, trimmed
    content. *)
Theorem cleanGeneratedCode_no_fence :
  (forall code, ~ Occurs FENCE (cleanGeneratedCode code)) /\
  cleanGeneratedCode
    (lit "```js" ++ [NEWLINE] ++ lit "code" ++ [NEWLINE] ++ lit "```")
    = lit "code".
Proof.
  split; [|vm_compute; reflexivity].
  intros code H. apply hasFence_Occurs in H.
  rewrite cleanGeneratedCode_hasFence in H. discriminate.
Qed.

(** ** Stage 1 takes out delimiters only *)

Lemma skipWord_split (s : jsstring) :
  exists tag, s = tag ++ skipWord s /\ forallb isWord tag = true.
Proof.
  induction s as [|c r (tag & Hr & Htag)]; [now exists []|].
  simpl. destruct (isWord c) eqn:Hc.
  - exists (c :: tag). simpl. rewrite Hc, Htag. now rewrite <- Hr.
  - now exists [].
Qed.

Lemma skipNewline_split (s : jsstring) :
  exists nl, s = nl ++ skipNewline s /\ (nl = [] \/ nl = [NEWLINE]).
Proof.
  destruct s as [|c r]; [exists []; auto|].
  simpl. destruct (c =? NEWLINE) eqn:Hc.
  - apply Z.eqb_eq in Hc. subst c. exists [NEWLINE]. auto.
  - exists []. auto.
Qed.

(** C5, as amended: stage 1 takes out runs made of three backticks, the word
    units right after them and one line feed when it comes next, and keeps
    every other unit in place and in order. *)
Theorem removeCodeFences_removes_fence_lines (code : jsstring) :
  Removes fenceLine code (removeCodeFences code).
Proof.
  induction code as [s IH] using jsstring_length_ind.
  destruct s as [|c r]; [simp removeCodeFences; constructor|].
  destruct (startsFence (c :: r)) eqn:Hs.
  - rewrite (removeCodeFences_skip _ Hs).
    pose proof (matchFence_length _ _ (matchFence_true _ Hs)) as Hlen.
    destruct (startsFence_inv _ Hs) as [t Ht]. rewrite Ht in *.
    change (skipn 3 (FENCE ++ t)) with t in *.
    destruct (skipWord_split t) as (tag & Htag & Hword).
    destruct (skipNewline_split (skipWord t)) as (nl & Hnl & Hcase).
    assert (E : FENCE ++ t
                = (FENCE ++ tag ++ nl) ++ skipNewline (skipWord t)).
    { rewrite <- !app_assoc. now rewrite <- Hnl, <- Htag. }
    rewrite E at 1. apply Removes_drop.
    + now exists tag, nl.
    + apply IH. lia.
  - rewrite (removeCodeFences_keep _ _ Hs). apply Removes_keep, IH. simpl. lia.
Qed.

Lemma Removes_fenceWithTag_newlines (s out : jsstring) :
  Removes fenceWithTag s out ->
  count_occ Z.eq_dec s NEWLINE = count_occ Z.eq_dec out NEWLINE.
Proof.
  induction 1 as [|c s out _ IH|d s out (tag & -> & Htag) _ IH].
  - reflexivity.
  - simpl. destruct (Z.eq_dec c NEWLINE); now rewrite IH.
  - rewrite count_occ_app, IH.
    assert (Hz : count_occ Z.eq_dec (FENCE ++ tag) NEWLINE = 0%nat).
    { apply count_occ_not_In. intros Hin. apply in_app_or in Hin as [Hin|Hin].
      - simpl in Hin. unfold BACKTICK, NEWLINE in Hin. intuition discriminate.
      - rewrite forallb_forall in Htag. now apply Htag in Hin. }
    now rewrite Hz.
Qed.

(** C5, as stated, fails: the line feed behind the opening fence is no part
    of "three backticks and a language tag", yet stage 1 takes it out. *)
Lemma removeCodeFences_drops_line_feed :
  ~ Removes fenceWithTag
      (lit "```js" ++ [NEWLINE] ++ lit "code" ++ [NEWLINE] ++ lit "```")
      (removeCodeFences
         (lit "```js" ++ [NEWLINE] ++ lit "code" ++ [NEWLINE] ++ lit "```")).
Proof.
  intros H. apply Removes_fenceWithTag_newlines in H.
  vm_compute in H. discriminate.
Qed.

(** ** The prompt builder *)

Lemma Occurs_includes (p s : jsstring) : includes s p = true -> Occurs p s.
Proof.
  assert (Hsw : forall s p,
             startsWith s p = true -> exists post, s = p ++ post).
  { clear. intros s p. revert s.
    induction p as [|b p IH]; intros s H; [now exists s|].
    destruct s as [|a s]; [discriminate|].
    simpl in H. apply andb_prop in H as [Hab Hs]. apply Z.eqb_eq in Hab.
    destruct (IH _ Hs) as [post ->]. subst. now exists post. }
  induction s as [|c r IH]; cbn [includes]; intros H.
  - rewrite orb_false_r in H. destruct (Hsw _ _ H) as [post ->].
    now exists [], post.
  - apply orb_prop in H as [H|H].
    + destruct (Hsw _ _ H) as [post ->]. now exists [], post.
    + destruct (IH H) as (pre & post & ->). now exists (c :: pre), post.
Qed.

Lemma Occurs_skip (p a s : jsstring) : Occurs p s -> Occurs p (a ++ s).
Proof.
  intros (pre & post & ->). exists (a ++ pre), post. now rewrite app_assoc.
Qed.

Lemma Occurs_head (p post : jsstring) : Occurs p (p ++ post).
Proof. now exists [], post. Qed.

Lemma Occurs_quoted (t post : jsstring) :
  Occurs ([DQUOTE] ++ t ++ [DQUOTE]) ([DQUOTE] ++ t ++ [DQUOTE] ++ post).
Proof. exists [], post. now rewrite <- !app_assoc. Qed.

(** C6: the prompt depends on the transcript and the language only; it
    holds the transcript between double quotes and the name of the
    language. *)
Theorem createCodePrompt_deterministic
    (transcript1 transcript2 : jsstring) (language1 language2 : jsval) :
  transcript1 = transcript2 -> language1 = language2 ->
  createCodePrompt transcript1 language1
    = createCodePrompt transcript2 language2 /\
  Occurs ([DQUOTE] ++ transcript1 ++ [DQUOTE])
         (createCodePrompt transcript1 language1) /\
  Occurs (toString language1) (createCodePrompt transcript1 language1).
Proof.
  intros -> ->. split; [reflexivity|]. unfold createCodePrompt. split.
  - do 5 apply Occurs_skip. apply Occurs_quoted.
  - apply Occurs_skip, Occurs_head.
Qed.

Lemma createCodePrompt_deterministic_witness :
  createCodePrompt (lit "write a function that adds two numbers")
                   (VString (lit "python"))
    = createCodePrompt (lit "write a function that adds two numbers")
                       (VString (lit "python")) /\
  Occurs ([DQUOTE] ++ lit "write a function that adds two numbers" ++ [DQUOTE])
         (createCodePrompt (lit "write a function that adds two numbers")
                           (VString (lit "python"))) /\
  Occurs (toString (VString (lit "python")))
         (createCodePrompt (lit "write a function that adds two numbers")
                           (VString (lit "python"))).
Proof.
  apply (createCodePrompt_deterministic
           (lit "write a function that adds two numbers")
           (lit "write a function that adds two numbers")
           (VString (lit "python")) (VString (lit "python")));
    reflexivity.
Defined.

(** C10: without a language the lookup misses, the generic instruction is
    used, and the text "undefined" stands where the name of the language
    would. *)
Theorem createCodePrompt_undefined (transcript : jsstring) :
  getProperty VUndefined = PUndefined /\
  createCodePrompt transcript VUndefined =
    lit "You are a code generation assistant. Convert the following natural language request into undefined code."
    ++ [NEWLINE; NEWLINE]
    ++ lit "Request: " ++ [DQUOTE] ++ transcript ++ [DQUOTE]
    ++ [NEWLINE; NEWLINE]
    ++ lit "Requirements:" ++ [NEWLINE]
    ++ lit "- Generate clean, well-structured code." ++ [NEWLINE]
    ++ lit "- Include helpful comments" ++ [NEWLINE]
    ++ lit "- Make the code production-ready" ++ [NEWLINE]
    ++ lit "- If the request is unclear, make reasonable assumptions"
    ++ [NEWLINE]
    ++ lit "- Only return the code, no explanations or markdown formatting"
    ++ [NEWLINE; NEWLINE]
    ++ lit "Generate the undefined code:".
Proof.
  split; [reflexivity|]. unfold createCodePrompt.
  change (toString VUndefined) with (lit "undefined").
  change (propToString (instructionFor VUndefined))
    with (lit "Generate clean, well-structured code.").
  change (lit "You are a code generation assistant. Convert the following natural language request into undefined code.")
    with (lit "You are a code generation assistant. Convert the following natural language request into "
          ++ lit "undefined" ++ lit " code.").
  change (lit "- Generate clean, well-structured code.")
    with (lit "- " ++ lit "Generate clean, well-structured code.").
  change (lit "Generate the undefined code:")
    with (lit "Generate the " ++ lit "undefined" ++ lit " code:").
  now rewrite <- !app_assoc.
Qed.

(** Languages outside the table and outside the inherited names get the
    generic instruction. *)
Lemma instructionFor_generic (language : jsstring) :
  assoc language languageInstructions = None ->
  existsb (jsstring_eqb language) inheritedKeys = false ->
  instructionFor (VString language) = POwn genericInstruction.
Proof.
  intros Hown Hinh. unfold instructionFor, getProperty. simpl toString.
  rewrite Hown.
  assert (Hfun : assoc language objectPrototypeFunctions = None).
  { unfold inheritedKeys in Hinh. rewrite existsb_app in Hinh.
    apply orb_false_elim in Hinh as [Hinh _].
    induction objectPrototypeFunctions as [|[k v] l IH]; [reflexivity|].
    simpl in *. apply orb_false_elim in Hinh as [-> Hinh]. now apply IH. }
  rewrite Hfun.
  unfold inheritedKeys in Hinh. rewrite existsb_app in Hinh.
  apply orb_false_elim in Hinh as [_ Hinh]. simpl in Hinh.
  rewrite orb_false_r in Hinh. now rewrite Hinh.
Qed.

Lemma createCodePrompt_generic (transcript language : jsstring) :
  assoc language languageInstructions = None ->
  existsb (jsstring_eqb language) inheritedKeys = false ->
  Occurs (lit "- " ++ genericInstruction ++ [NEWLINE])
         (createCodePrompt transcript (VString language)).
Proof.
  intros Hown Hinh. unfold createCodePrompt.
  rewrite (instructionFor_generic _ Hown Hinh). cbn [propToString].
  do 11 apply Occurs_skip.
  exists [], (lit "- Include helpful comments" ++ [NEWLINE]
    ++ lit "- Make the code production-ready" ++ [NEWLINE]
    ++ lit "- If the request is unclear, make reasonable assumptions"
    ++ [NEWLINE]
    ++ lit "- Only return the code, no explanations or markdown formatting"
    ++ [NEWLINE; NEWLINE]
    ++ lit "Generate the " ++ toString (VString language) ++ lit " code:").
  cbn [app]. now rewrite <- !app_assoc.
Qed.

(** C2 at a language the table does not list: the name "constructor" is
    found on the prototype of the table, the fallback does not fire, and the
    requirement line holds the printed form of a function in place of the
    generic instruction. *)
Theorem createCodePrompt_inherited_key :
  assoc (lit "constructor") languageInstructions = None /\
  instructionFor (VString (lit "constructor")) = PFunction (lit "Object") /\
  includes (createCodePrompt (lit "add two numbers")
                             (VString (lit "constructor")))
           genericInstruction = false /\
  includes (createCodePrompt (lit "add two numbers")
                             (VString (lit "constructor")))
           (lit "- function Object() { [native code] }") = true.
Proof. repeat split; vm_compute; reflexivity. Qed.

(** ** The handler *)

Lemma bind_ret {A B : Type} (a : A) (k : A -> Prog B) (log : list Event) :
  bind (ret a) k log = k a log.
Proof. reflexivity. Qed.

Lemma bind_throw {A B : Type} (e : JsError) (k : A -> Prog B)
    (log : list Event) :
  bind (throw e) k log = (log, inl e).
Proof. reflexivity. Qed.

Lemma bind_emit {B : Type} (ev : Event) (k : unit -> Prog B)
    (log : list Event) :
  bind (emit ev) k log = k tt (log ++ [ev]).
Proof. reflexivity. Qed.

Lemma blank_trim (s : jsstring) : blank s = true -> trim s = [].
Proof.
  intros H. assert (Hs : trimStart s = []).
  { induction s as [|c r IH]; [reflexivity|].
    simpl in *. apply andb_prop in H as [-> Hr]. now apply IH. }
  unfold trim. now rewrite Hs.
Qed.

Lemma blank_join (ts : list jsstring) :
  forallb blank ts = true -> blank (join [NEWLINE] ts) = true.
Proof.
  induction ts as [|t ts IH]; [reflexivity|].
  cbn [forallb]. intros H. apply andb_prop in H as [Ht Hts].
  destruct ts as [|t' ts]; [exact Ht|].
  cbn [join] in *. unfold blank. rewrite !forallb_app.
  fold (blank t). rewrite Ht. cbn [andb]. apply andb_true_intro. split.
  - reflexivity.
  - apply (IH Hts).
Qed.

(** With a first alternative in every result, [transcribe] neither throws
    nor records anything and joins the first transcripts with line feeds. *)
Lemma transcribe_join (response : RecognizeResponse) (log : list Event) :
  hasFirstAlternatives response = true ->
  transcribe response log
    = (log, inr (join [NEWLINE] (firstTranscripts response))).
Proof.
  unfold transcribe, hasFirstAlternatives, firstTranscripts.
  destruct response as [rs]. simpl. intros H.
  assert (Hmap : mapM (fun result =>
                   a <- first (lit "transcript") (alternatives result) ;;
                   ret (transcript a)) rs log
                 = (log, inr (map (fun result =>
                      match alternatives result with
                      | [] => []
                      | a :: _ => transcript a
                      end) rs))).
  { revert log.
    induction rs as [|r rs IH]; intros log; [reflexivity|].
    simpl in H. apply andb_prop in H as [Hr Hrs].
    specialize (IH Hrs). cbn [mapM map].
    destruct (alternatives r) as [|a alts]; [discriminate|].
    cbn [first]. unfold bind at 1. unfold bind at 1. unfold ret at 1.
    unfold ret at 1. unfold bind at 1. rewrite IH. reflexivity. }
  unfold bind at 1. rewrite Hmap. reflexivity.
Qed.

Lemma bind_transcribe {B : Type} (response : RecognizeResponse)
    (k : jsstring -> Prog B) (log : list Event) :
  hasFirstAlternatives response = true ->
  bind (transcribe response) k log
    = k (join [NEWLINE] (firstTranscripts response)) log.
Proof. intros H. unfold bind. now rewrite (transcribe_join _ _ H). Qed.

Section HandlerProperties.

Variable recognize : RecognizeRequest -> JsError + RecognizeResponse.
Variable generateContent : GenerateRequest -> JsError + GenerateResponse.
Variable bufferFromBase64 : jsstring -> list Z.

Lemma bind_callRecognize_ok {B : Type} (request : RecognizeRequest)
    (response : RecognizeResponse) (k : RecognizeResponse -> Prog B)
    (log : list Event) :
  recognize request = inr response ->
  bind (callRecognize recognize request) k log
    = k response (log ++ [CallRecognize request]).
Proof.
  intros H. unfold callRecognize. rewrite H. reflexivity.
Qed.

Lemma bind_callRecognize_error {B : Type} (request : RecognizeRequest)
    (e : JsError) (k : RecognizeResponse -> Prog B) (log : list Event) :
  recognize request = inl e ->
  bind (callRecognize recognize request) k log
    = (log ++ [CallRecognize request], inl e).
Proof.
  intros H. unfold callRecognize. rewrite H. reflexivity.
Qed.

Lemma bind_callGenerateContent_error {B : Type} (request : GenerateRequest)
    (e : JsError) (k : GenerateResponse -> Prog B) (log : list Event) :
  generateContent request = inl e ->
  bind (callGenerateContent generateContent request) k log
    = (log ++ [CallGenerateContent request], inl e).
Proof.
  intros H. unfold callGenerateContent. rewrite H. reflexivity.
Qed.

Lemma method_POST (req : Request) :
  method req = lit "POST" ->
  processVoice recognize generateContent bufferFromBase64 req =
  tryCatch (pipeline recognize generateContent bufferFromBase64 (body req))
    (fun error =>
       emit (ConsoleError (lit "Error processing voice:") error) ;;
       ret (respond 500 (Failure failedMessage))).
Proof.
  intros H. unfold processVoice. rewrite H. reflexivity.
Qed.

(** A request without audio leads to no event at all, whatever its
    method: neither service is called. *)
Lemma processVoice_no_audio_silent (req : Request) :
  truthy (audio (body req)) = false ->
  fst (run recognize generateContent bufferFromBase64 req) = [].
Proof.
  intros H. unfold run, processVoice.
  destruct (jsstring_eqb (method req) (lit "OPTIONS")); [reflexivity|].
  destruct (jsstring_eqb (method req) (lit "POST")); [|reflexivity].
  cbn [negb]. unfold tryCatch, pipeline. rewrite H. reflexivity.
Qed.

(** C7: a request whose audio is missing or empty (the pipeline is what
    the handler does with the body of a POST request) is answered with
    status 400 and the validation failure, and the run records no event:
    neither the speech service nor the generation service is called. *)
Theorem processVoice_no_audio (req : Request) :
  method req = lit "POST" ->
  truthy (audio (body req)) = false ->
  run recognize generateContent bufferFromBase64 req
    = ([], inr (respond 400 (Failure noAudioMessage))).
Proof.
  intros Hm Ha. unfold run. rewrite (method_POST _ Hm).
  unfold tryCatch, pipeline. rewrite Ha. reflexivity.
Qed.

(** C8: when every first alternative the speech service returns is blank,
    the transcript, the first alternatives joined with line feeds, trims
    to nothing; the answer is status 400 with the no-speech failure, which
    is not the validation failure, and the run ends after the call of the
    speech service: the generation service is not called. *)
Theorem processVoice_no_speech (req : Request)
    (response : RecognizeResponse) :
  method req = lit "POST" ->
  truthy (audio (body req)) = true ->
  recognize (recognizeRequest bufferFromBase64 (audio (body req)))
    = inr response ->
  hasFirstAlternatives response = true ->
  forallb blank (firstTranscripts response) = true ->
  transcribe response []
    = ([], inr (join [NEWLINE] (firstTranscripts response))) /\
  run recognize generateContent bufferFromBase64 req =
    ([ ConsoleLog [lit "Processing speech to text..."];
       CallRecognize (recognizeRequest bufferFromBase64 (audio (body req))) ],
     inr (respond 400 (Failure noSpeechMessage))) /\
  noSpeechMessage <> noAudioMessage.
Proof.
  intros Hm Ha Hr Hfirst Hblank. split; [|split].
  - now apply transcribe_join.
  - unfold run. rewrite (method_POST _ Hm). unfold tryCatch, pipeline.
    rewrite Ha. cbn [negb]. rewrite bind_emit.
    rewrite (bind_callRecognize_ok _ _ _ _ Hr).
    rewrite (bind_transcribe _ _ _ Hfirst).
    rewrite (blank_trim _ (blank_join _ Hblank)). reflexivity.
  - vm_compute. discriminate.
Qed.

(** C9: when the call of the speech service fails, or the call of the
    generation service does, the failure is written to the error console
    and the answer is status 500 with one fixed message that holds nothing of
    the failure. *)
Theorem processVoice_service_failure (req : Request) (e : JsError) :
  method req = lit "POST" ->
  truthy (audio (body req)) = true ->
  recognize (recognizeRequest bufferFromBase64 (audio (body req))) = inl e \/
  (exists response,
     recognize (recognizeRequest bufferFromBase64 (audio (body req)))
       = inr response /\
     hasFirstAlternatives response = true /\
     trim (join [NEWLINE] (firstTranscripts response)) <> [] /\
     generateContent
       (generateRequest
          (createCodePrompt (join [NEWLINE] (firstTranscripts response))
                            (language (body req)))) = inl e) ->
  snd (run recognize generateContent bufferFromBase64 req)
    = inr (respond 500 (Failure failedMessage)) /\
  last (fst (run recognize generateContent bufferFromBase64 req))
       (ConsoleLog [])
    = ConsoleError (lit "Error processing voice:") e.
Proof.
  intros Hm Ha Hfail. unfold run. rewrite (method_POST _ Hm).
  unfold tryCatch, pipeline. rewrite Ha. cbn [negb]. rewrite bind_emit.
  destruct Hfail as [Hr | (response & Hr & Hfirst & Hspeech & Hg)].
  - rewrite (bind_callRecognize_error _ _ _ _ Hr). split; reflexivity.
  - rewrite (bind_callRecognize_ok _ _ _ _ Hr).
    rewrite (bind_transcribe _ _ _ Hfirst).
    destruct (trim (join [NEWLINE] (firstTranscripts response))) as [|c r]
      eqn:Et; [contradiction|].
    cbn [length Nat.eqb]. rewrite !bind_emit.
    rewrite (bind_callGenerateContent_error _ _ _ _ Hg).
    split; reflexivity.
Qed.

End HandlerProperties.

Lemma processVoice_no_audio_witness :
  run recognizeFails generateFails keepUnits (postRequest (VString []))
    = ([], inr (respond 400 (Failure noAudioMessage))).
Proof.
  apply (processVoice_no_audio recognizeFails generateFails keepUnits
           (postRequest (VString []))); reflexivity.
Defined.

Lemma processVoice_no_speech_witness :
  transcribe {| results :=
                  [ {| alternatives := [ {| transcript := lit "  " |} ] |};
                    {| alternatives := [ {| transcript := [] |};
                                         {| transcript := lit "hum" |} ] |} ] |}
             []
    = ([], inr (lit "  " ++ [NEWLINE])) /\
  run recognizeSilence generateFails keepUnits
      (postRequest (VString (lit "GkXfo59ChoEB")))
    = ([ ConsoleLog [lit "Processing speech to text..."];
         CallRecognize
           (recognizeRequest keepUnits (VString (lit "GkXfo59ChoEB"))) ],
       inr (respond 400 (Failure noSpeechMessage))) /\
  noSpeechMessage <> noAudioMessage.
Proof.
  apply (processVoice_no_speech recognizeSilence generateFails keepUnits
           (postRequest (VString (lit "GkXfo59ChoEB")))); reflexivity.
Defined.

Lemma processVoice_service_failure_witness :
  snd (run recognizeSpeech generateFails keepUnits
           (postRequest (VString (lit "GkXfo59ChoEB"))))
    = inr (respond 500 (Failure failedMessage)) /\
  last (fst (run recognizeSpeech generateFails keepUnits
                 (postRequest (VString (lit "GkXfo59ChoEB")))))
       (ConsoleLog [])
    = ConsoleError (lit "Error processing voice:") unavailable.
Proof.
  apply (processVoice_service_failure recognizeSpeech generateFails keepUnits
           (postRequest (VString (lit "GkXfo59ChoEB"))) unavailable);
    [reflexivity | reflexivity |].
  right. eexists. repeat split. vm_compute. discriminate.
Defined.

(** A full run: the transcript, the sanitized code and the language come
    back together, after one call of each service. *)
Example processVoice_success :
  run recognizeSpeech generateFenced keepUnits
      (postRequest (VString (lit "GkXfo59ChoEB")))
    = ([ ConsoleLog [lit "Processing speech to text..."];
         CallRecognize
           (recognizeRequest keepUnits (VString (lit "GkXfo59ChoEB")));
         ConsoleLog [lit "Transcript:"; lit "add two numbers"];
         ConsoleLog [lit "Generating code with Gemini..."];
         CallGenerateContent
           (generateRequest
              (createCodePrompt (lit "add two numbers")
                                (VString (lit "python"))));
         ConsoleLog [lit "Code generated successfully"] ],
       inr (respond 200
              (Success (lit "add two numbers")
                       (lit "def add(a, b):" ++ [NEWLINE]
                        ++ lit "    return a + b")
                       (VString (lit "python"))))).
Proof. vm_compute. reflexivity. Qed.

(** * Further properties *)

(** ** The sanitizer *)

Lemma Subsequence_refl (s : jsstring) : Subsequence s s.
Proof. induction s; constructor; assumption. Qed.

Lemma Subsequence_trans (a b c : jsstring) :
  Subsequence a b -> Subsequence b c -> Subsequence a c.
Proof.
  intros Hab Hbc. revert a Hab.
  induction Hbc as [|x b c _ IH|x b c _ IH]; intros a Hab.
  - exact Hab.
  - inversion Hab; subst.
    + apply Subsequence_keep. now apply IH.
    + apply Subsequence_skip. now apply IH.
  - apply Subsequence_skip. now apply IH.
Qed.

Lemma Subsequence_drop_front (a s : jsstring) : Subsequence s (a ++ s).
Proof.
  induction a as [|c a IH]; [apply Subsequence_refl|].
  now apply Subsequence_skip.
Qed.

Lemma Subsequence_drop_back (s b : jsstring) : Subsequence s (s ++ b).
Proof.
  induction s as [|c s IH].
  - induction b; constructor; assumption.
  - now apply Subsequence_keep.
Qed.

Lemma Subsequence_length (out s : jsstring) :
  Subsequence out s -> (length out <= length s)%nat.
Proof. induction 1; simpl; lia. Qed.

Lemma removeCodeFences_Subsequence (s : jsstring) :
  Subsequence (removeCodeFences s) s.
Proof.
  induction s as [s IH] using jsstring_length_ind.
  destruct s as [|c r]; [simp removeCodeFences; constructor|].
  destruct (startsFence (c :: r)) eqn:Hs.
  - rewrite (removeCodeFences_skip _ Hs).
    pose proof (matchFence_length _ _ (matchFence_true _ Hs)) as Hlen.
    destruct (startsFence_inv _ Hs) as [t Ht]. rewrite Ht in *.
    change (skipn 3 (FENCE ++ t)) with t in *.
    destruct (skipWord_split t) as (tag & Htag & _).
    destruct (skipNewline_split (skipWord t)) as (nl & Hnl & _).
    assert (Hrest : Subsequence
                      (removeCodeFences (skipNewline (skipWord t)))
                      (skipNewline (skipWord t))) by (apply IH; lia).
    apply (Subsequence_trans _ _ _ Hrest).
    rewrite Htag at 2. rewrite Hnl at 2.
    rewrite !app_assoc. apply Subsequence_drop_front.
  - rewrite (removeCodeFences_keep _ _ Hs).
    apply Subsequence_keep, IH. simpl. lia.
Qed.

Lemma trim_Subsequence (s : jsstring) : Subsequence (trim s) s.
Proof.
  destruct (trim_split s) as (a & b & H & _). rewrite H at 2.
  exact (Subsequence_trans _ _ _ (Subsequence_drop_back (trim s) b)
           (Subsequence_drop_front a (trim s ++ b))).
Qed.

Lemma removeUnwantedPrefix_Subsequence
    (prefixes : list jsstring) (s : jsstring) :
  Subsequence (removeUnwantedPrefix prefixes s) s.
Proof.
  rewrite removeUnwantedPrefix_find.
  destruct (firstPreface prefixes s) as [p|]; [|apply Subsequence_refl].
  apply (Subsequence_trans _ _ _ (trim_Subsequence _)).
  unfold substring. rewrite <- (firstn_skipn (length p) s) at 2.
  apply Subsequence_drop_front.
Qed.

(** X1: the sanitizer only drops units: its output is the input with some
    units left out, the others in their order, so it is never longer than
    the input. *)
Theorem cleanGeneratedCode_Subsequence (code : jsstring) :
  Subsequence (cleanGeneratedCode code) code /\
  (length (cleanGeneratedCode code) <= length code)%nat.
Proof.
  assert (H : Subsequence (cleanGeneratedCode code) code).
  { unfold cleanGeneratedCode.
    apply (Subsequence_trans _ _ _ (removeUnwantedPrefix_Subsequence _ _)).
    apply (Subsequence_trans _ _ _ (trim_Subsequence _)).
    apply removeCodeFences_Subsequence. }
  split; [exact H | exact (Subsequence_length _ _ H)].
Qed.

Lemma rev_head_last (c : Z) (rest : jsstring) :
  exists front, rev (c :: rest) = last (c :: rest) c :: front.
Proof.
  assert (H : c :: rest <> []) by discriminate.
  destruct (exists_last H) as (front & x & E). rewrite E.
  rewrite last_last, rev_app_distr. now exists (rev front).
Qed.

(** X2: what the sanitizer returns is empty or has no white space at
    either end: its first unit and its last unit are not white space. *)
Theorem cleanGeneratedCode_ends (code : jsstring) :
  match cleanGeneratedCode code with
  | [] => True
  | c :: rest =>
      isWhiteSpace c = false /\ isWhiteSpace (last (c :: rest) c) = false
  end.
Proof.
  destruct (cleanGeneratedCode_trimmed code) as [Hstart Hend].
  destruct (cleanGeneratedCode code) as [|c rest]; [exact I|]. split.
  - exact (trimStart_head _ _ _ Hstart).
  - destruct (rev_head_last c rest) as [front E]. rewrite E in Hend.
    exact (trimStart_head _ _ _ Hend).
Qed.

(** X3: a reply without a fence marker that, once trimmed, starts with none
    of the prefaces comes back trimmed and otherwise as it was. *)
Theorem cleanGeneratedCode_plain (code : jsstring) :
  hasFence code = false ->
  startsWithPreface (trim code) = false ->
  cleanGeneratedCode code = trim code.
Proof.
  intros Hf Hp. unfold cleanGeneratedCode.
  rewrite (removeCodeFences_id _ Hf), removeUnwantedPrefix_find.
  apply firstPreface_None in Hp. now rewrite Hp.
Qed.

Lemma cleanGeneratedCode_plain_witness :
  cleanGeneratedCode (lit "  print(1)  ") = trim (lit "  print(1)  ").
Proof.
  apply (cleanGeneratedCode_plain (lit "  print(1)  ")); reflexivity.
Defined.

(** X4: the first two stages, taking out the fences and trimming, are
    idempotent, alone and together; a second run of the sanitizer can only
    differ from the first in the loop over the prefaces. *)
Theorem removeCodeFences_trim_idempotent (code : jsstring) :
  removeCodeFences (removeCodeFences code) = removeCodeFences code /\
  trim (removeCodeFences (trim (removeCodeFences code)))
    = trim (removeCodeFences code).
Proof.
  split.
  - apply removeCodeFences_id, removeCodeFences_hasFence.
  - rewrite (removeCodeFences_id (trim (removeCodeFences code))).
    + apply trim_idem.
    + apply trim_hasFence, removeCodeFences_hasFence.
Qed.

(** ** The prompt builder *)

(** X5: for one language, two transcripts that give the same prompt are
    the same transcript: the prompt keeps the whole transcript apart. *)
Theorem createCodePrompt_injective
    (transcript1 transcript2 : jsstring) (language : jsval) :
  createCodePrompt transcript1 language
    = createCodePrompt transcript2 language ->
  transcript1 = transcript2.
Proof.
  unfold createCodePrompt. intros H.
  repeat (apply app_inv_head in H).
  now apply app_inv_tail in H.
Qed.

Lemma createCodePrompt_injective_witness :
  lit "add two numbers" = lit "add two numbers".
Proof.
  apply (createCodePrompt_injective (lit "add two numbers")
           (lit "add two numbers") (VString (lit "python"))).
  reflexivity.
Defined.

(** ** The handler *)

Lemma mapM_log {A B : Type} (f : A -> Prog B) (l : list A) :
  (forall a log, fst (f a log) = log) ->
  forall log, fst (mapM f l log) = log.
Proof.
  intros Hf. induction l as [|a l IH]; intros log; [reflexivity|].
  cbn [mapM]. unfold bind at 1.
  specialize (Hf a log). destruct (f a log) as [log1 [e|b]]; simpl in Hf;
    subst log1; [reflexivity|].
  unfold bind at 1. specialize (IH log).
  destruct (mapM f l log) as [log2 [e|bs]]; simpl in IH; subst log2;
    reflexivity.
Qed.

(** [transcribe] records no event. *)
Lemma transcribe_log (response : RecognizeResponse) (log : list Event) :
  fst (transcribe response log) = log.
Proof.
  unfold transcribe. unfold bind at 1.
  pose proof (mapM_log
    (fun result =>
       a <- first (lit "transcript") (alternatives result) ;;
       ret (transcript a)) (results response)) as H.
  assert (Hf : forall (result : RecognitionResult) (l : list Event),
             fst ((a <- first (lit "transcript") (alternatives result) ;;
                   ret (transcript a)) l) = l).
  { intros result l. destruct (alternatives result); reflexivity. }
  specialize (H Hf log).
  destruct (mapM _ (results response) log) as [log1 [e|ts]]; simpl in H;
    subst log1; reflexivity.
Qed.

(** A result without an alternative makes [transcribe] throw the
    [TypeError] of the read of [transcript]. *)
Lemma transcribe_throws (response : RecognizeResponse) (log : list Event) :
  hasFirstAlternatives response = false ->
  transcribe response log = (log, inl (typeError (lit "transcript"))).
Proof.
  unfold transcribe, hasFirstAlternatives. destruct response as [rs].
  simpl. intros H.
  assert (Hmap : mapM (fun result =>
                   a <- first (lit "transcript") (alternatives result) ;;
                   ret (transcript a)) rs log
                 = (log, inl (typeError (lit "transcript")))).
  { revert log. induction rs as [|r rs IH]; intros log; [discriminate|].
    cbn [forallb] in H. cbn [mapM].
    destruct (alternatives r) as [|a alts].
    - reflexivity.
    - cbn [andb] in H. specialize (IH H).
      cbn [first]. unfold bind at 1. unfold bind at 1. unfold ret at 1.
      unfold ret at 1. unfold bind at 1. rewrite IH. reflexivity. }
  unfold bind at 1. rewrite Hmap. reflexivity.
Qed.

Lemma bind_callGenerateContent_ok {B : Type}
    (generateContent : GenerateRequest -> JsError + GenerateResponse)
    (request : GenerateRequest) (result : GenerateResponse)
    (k : GenerateResponse -> Prog B) (log : list Event) :
  generateContent request = inr result ->
  bind (callGenerateContent generateContent request) k log
    = k result (log ++ [CallGenerateContent request]).
Proof.
  intros H. unfold callGenerateContent. rewrite H. reflexivity.
Qed.

(** Every run of the handler follows one of the paths. *)
Lemma run_Path
    (recognize : RecognizeRequest -> JsError + RecognizeResponse)
    (generateContent : GenerateRequest -> JsError + GenerateResponse)
    (bufferFromBase64 : jsstring -> list Z) (req : Request) :
  exists events response,
    run recognize generateContent bufferFromBase64 req
      = (events, inr response) /\
    Path bufferFromBase64 req events response.
Proof.
  unfold run, processVoice.
  destruct (jsstring_eqb (method req) (lit "OPTIONS")) eqn:Ho.
  { eexists _, _. split; [reflexivity | now apply Path_preflight]. }
  destruct (jsstring_eqb (method req) (lit "POST")) eqn:Hp; cbn [negb].
  2: { eexists _, _. split; [reflexivity | now apply Path_method]. }
  apply jsstring_eqb_eq in Hp.
  unfold tryCatch, pipeline.
  destruct (truthy (audio (body req))) eqn:Ha; cbn [negb].
  2: { eexists _, _. split; [reflexivity | now apply Path_no_audio]. }
  rewrite bind_emit.
  destruct (recognize (recognizeRequest bufferFromBase64 (audio (body req))))
    as [e|response] eqn:Hr.
  { rewrite (bind_callRecognize_error _ _ _ _ _ Hr).
    eexists _, _. split; [reflexivity | now apply Path_speech_thrown]. }
  rewrite (bind_callRecognize_ok _ _ _ _ _ Hr).
  unfold bind at 1.
  pose proof (transcribe_log response
    ([] ++ [ConsoleLog [lit "Processing speech to text..."]] ++
     [CallRecognize (recognizeRequest bufferFromBase64 (audio (body req)))]))
    as Hlog.
  rewrite app_assoc in Hlog.
  destruct (transcribe response _) as [log1 [e|transcription]];
    simpl in Hlog; subst log1.
  { eexists _, _. split; [reflexivity | now apply Path_speech_thrown]. }
  destruct (trim transcription) as [|c r] eqn:Et; cbn [length Nat.eqb].
  { eexists _, _. split; [reflexivity | now apply Path_no_speech]. }
  rewrite !bind_emit.
  destruct (generateContent
              (generateRequest
                 (createCodePrompt transcription (language (body req)))))
    as [e|result] eqn:Hg.
  { rewrite (bind_callGenerateContent_error _ _ _ _ _ Hg).
    eexists _, _. split; [reflexivity | now apply Path_generation_thrown]. }
  rewrite (bind_callGenerateContent_ok _ _ _ _ _ Hg).
  destruct result as [[|[[|generatedCode ps]] cs]].
  - eexists _, _. split; [reflexivity | now apply Path_generation_thrown].
  - eexists _, _. split; [reflexivity | now apply Path_generation_thrown].
  - eexists _, _. split; [reflexivity|].
    apply Path_success; try assumption. rewrite Et. discriminate.
Qed.

Section HandlerRuns.

Variable recognize : RecognizeRequest -> JsError + RecognizeResponse.
Variable generateContent : GenerateRequest -> JsError + GenerateResponse.
Variable bufferFromBase64 : jsstring -> list Z.

(** X6: the handler answers every request: no exception leaves it, the
    answer carries the three CORS headers, its status is one of 200, 204,
    400, 405 and 500, and status and body agree: a success object with 200,
    a failure object with 400 or 500, a plain text with 204 or 405. *)
Theorem processVoice_always_responds (req : Request) :
  exists response,
    snd (run recognize generateContent bufferFromBase64 req) = inr response /\
    headers response = corsHeaders /\
    match payload response with
    | Success _ _ _ => status response = 200
    | Failure _ => status response = 400 \/ status response = 500
    | Text _ => status response = 204 \/ status response = 405
    end.
Proof.
  destruct (run_Path recognize generateContent bufferFromBase64 req)
    as (events & response & Hrun & Hpath).
  exists response. rewrite Hrun. split; [reflexivity|].
  destruct Hpath; simpl; auto.
Qed.

(** X7: the path of success.  With a first alternative in every result, a
    transcript that is not blank and a generation answer whose first
    candidate has a first part, the run calls the speech service, then the
    generation service with the prompt built from the joined transcript and
    the language of the request, and answers 200 with that transcript, the
    sanitized text and the language as it came. *)
Theorem processVoice_success_path (req : Request)
    (response : RecognizeResponse) (result : GenerateResponse)
    (generatedCode : jsstring) :
  method req = lit "POST" ->
  truthy (audio (body req)) = true ->
  recognize (recognizeRequest bufferFromBase64 (audio (body req)))
    = inr response ->
  hasFirstAlternatives response = true ->
  trim (join [NEWLINE] (firstTranscripts response)) <> [] ->
  generateContent
    (generateRequest
       (createCodePrompt (join [NEWLINE] (firstTranscripts response))
                         (language (body req)))) = inr result ->
  firstText result = Some generatedCode ->
  run recognize generateContent bufferFromBase64 req =
    ([ ConsoleLog [lit "Processing speech to text..."];
       CallRecognize (recognizeRequest bufferFromBase64 (audio (body req)));
       ConsoleLog [lit "Transcript:";
                   join [NEWLINE] (firstTranscripts response)];
       ConsoleLog [lit "Generating code with Gemini..."];
       CallGenerateContent
         (generateRequest
            (createCodePrompt (join [NEWLINE] (firstTranscripts response))
                              (language (body req))));
       ConsoleLog [lit "Code generated successfully"] ],
     inr (respond 200
            (Success (join [NEWLINE] (firstTranscripts response))
                     (cleanGeneratedCode generatedCode)
                     (language (body req))))).
Proof.
  intros Hm Ha Hr Hfirst Hspeech Hg Htext.
  unfold run. rewrite (method_POST _ _ _ _ Hm). unfold tryCatch, pipeline.
  rewrite Ha. cbn [negb]. rewrite bind_emit.
  rewrite (bind_callRecognize_ok _ _ _ _ _ Hr).
  rewrite (bind_transcribe _ _ _ Hfirst).
  destruct (trim (join [NEWLINE] (firstTranscripts response))) as [|c r]
    eqn:Et; [contradiction|].
  cbn [length Nat.eqb]. rewrite !bind_emit.
  rewrite (bind_callGenerateContent_ok _ _ _ _ _ Hg).
  unfold firstText in Htext.
  destruct result as [[|[[|g ps]] cs]]; try discriminate.
  simpl in Htext. injection Htext as ->. reflexivity.
Qed.

(** X8: a recognition result without any alternative is an upstream
    failure: the read of its first alternative throws a [TypeError], which
    is logged, the answer is the generic 500, and the generation service is
    not called. *)
Theorem processVoice_no_alternative (req : Request)
    (response : RecognizeResponse) :
  method req = lit "POST" ->
  truthy (audio (body req)) = true ->
  recognize (recognizeRequest bufferFromBase64 (audio (body req)))
    = inr response ->
  hasFirstAlternatives response = false ->
  run recognize generateContent bufferFromBase64 req =
    ([ ConsoleLog [lit "Processing speech to text..."];
       CallRecognize (recognizeRequest bufferFromBase64 (audio (body req)));
       ConsoleError (lit "Error processing voice:")
                    (typeError (lit "transcript")) ],
     inr (respond 500 (Failure failedMessage))).
Proof.
  intros Hm Ha Hr Hfirst.
  unfold run. rewrite (method_POST _ _ _ _ Hm). unfold tryCatch, pipeline.
  rewrite Ha. cbn [negb]. rewrite bind_emit.
  rewrite (bind_callRecognize_ok _ _ _ _ _ Hr).
  unfold bind at 1. rewrite (transcribe_throws _ _ Hfirst). reflexivity.
Qed.

(** X9: a generation answer without a candidate, or whose first candidate
    has no part, is an upstream failure too: the read throws a [TypeError],
    which is logged, and the answer is the generic 500, not a success with
    empty code. *)
Theorem processVoice_no_candidate (req : Request)
    (response : RecognizeResponse) (result : GenerateResponse) :
  method req = lit "POST" ->
  truthy (audio (body req)) = true ->
  recognize (recognizeRequest bufferFromBase64 (audio (body req)))
    = inr response ->
  hasFirstAlternatives response = true ->
  trim (join [NEWLINE] (firstTranscripts response)) <> [] ->
  generateContent
    (generateRequest
       (createCodePrompt (join [NEWLINE] (firstTranscripts response))
                         (language (body req)))) = inr result ->
  firstText result = None ->
  snd (run recognize generateContent bufferFromBase64 req)
    = inr (respond 500 (Failure failedMessage)) /\
  last (fst (run recognize generateContent bufferFromBase64 req))
       (ConsoleLog [])
    = ConsoleError (lit "Error processing voice:")
                   (typeError (missingProperty result)).
Proof.
  intros Hm Ha Hr Hfirst Hspeech Hg Htext.
  unfold run. rewrite (method_POST _ _ _ _ Hm). unfold tryCatch, pipeline.
  rewrite Ha. cbn [negb]. rewrite bind_emit.
  rewrite (bind_callRecognize_ok _ _ _ _ _ Hr).
  rewrite (bind_transcribe _ _ _ Hfirst).
  destruct (trim (join [NEWLINE] (firstTranscripts response))) as [|c r]
    eqn:Et; [contradiction|].
  cbn [length Nat.eqb]. rewrite !bind_emit.
  rewrite (bind_callGenerateContent_ok _ _ _ _ _ Hg).
  unfold firstText in Htext.
  destruct result as [[|[[|g ps]] cs]]; try discriminate;
    split; reflexivity.
Qed.

End HandlerRuns.

Lemma processVoice_success_path_witness :
  run recognizeSpeech generateFenced keepUnits
      (postRequest (VString (lit "GkXfo59ChoEB")))
    = ([ ConsoleLog [lit "Processing speech to text..."];
         CallRecognize
           (recognizeRequest keepUnits (VString (lit "GkXfo59ChoEB")));
         ConsoleLog [lit "Transcript:"; lit "add two numbers"];
         ConsoleLog [lit "Generating code with Gemini..."];
         CallGenerateContent
           (generateRequest
              (createCodePrompt (lit "add two numbers")
                                (VString (lit "python"))));
         ConsoleLog [lit "Code generated successfully"] ],
       inr (respond 200
              (Success (lit "add two numbers")
                 (cleanGeneratedCode
                    (lit "Here is the code:" ++ [NEWLINE]
                     ++ lit "```python" ++ [NEWLINE]
                     ++ lit "def add(a, b):" ++ [NEWLINE]
                     ++ lit "    return a + b" ++ [NEWLINE]
                     ++ lit "```"))
                 (VString (lit "python"))))).
Proof.
  apply (processVoice_success_path recognizeSpeech generateFenced keepUnits
           (postRequest (VString (lit "GkXfo59ChoEB")))
           {| results :=
                [ {| alternatives :=
                       [ {| transcript := lit "add two numbers" |} ] |} ] |}
           {| candidates :=
                [ {| parts := [ lit "Here is the code:" ++ [NEWLINE]
                                ++ lit "```python" ++ [NEWLINE]
                                ++ lit "def add(a, b):" ++ [NEWLINE]
                                ++ lit "    return a + b" ++ [NEWLINE]
                                ++ lit "```" ] |} ] |});
    try reflexivity.
  vm_compute. discriminate.
Defined.

Lemma processVoice_no_alternative_witness :
  run recognizeNoAlternative generateFenced keepUnits
      (postRequest (VString (lit "GkXfo59ChoEB")))
    = ([ ConsoleLog [lit "Processing speech to text..."];
         CallRecognize
           (recognizeRequest keepUnits (VString (lit "GkXfo59ChoEB")));
         ConsoleError (lit "Error processing voice:")
                      (typeError (lit "transcript")) ],
       inr (respond 500 (Failure failedMessage))).
Proof.
  apply (processVoice_no_alternative recognizeNoAlternative generateFenced
           keepUnits (postRequest (VString (lit "GkXfo59ChoEB")))
           {| results :=
                [ {| alternatives := [ {| transcript := lit "add" |} ] |};
                  {| alternatives := [] |} ] |});
    reflexivity.
Defined.

Lemma processVoice_no_candidate_witness :
  snd (run recognizeSpeech generateNothing keepUnits
           (postRequest (VString (lit "GkXfo59ChoEB"))))
    = inr (respond 500 (Failure failedMessage)) /\
  last (fst (run recognizeSpeech generateNothing keepUnits
                 (postRequest (VString (lit "GkXfo59ChoEB")))))
       (ConsoleLog [])
    = ConsoleError (lit "Error processing voice:")
                   (typeError (missingProperty {| candidates := [] |})).
Proof.
  apply (processVoice_no_candidate recognizeSpeech generateNothing keepUnits
           (postRequest (VString (lit "GkXfo59ChoEB")))
           {| results :=
                [ {| alternatives :=
                       [ {| transcript := lit "add two numbers" |} ] |} ] |}
           {| candidates := [] |});
    try reflexivity.
  vm_compute. discriminate.
Defined.

(** Takes an equation between an explicit list of events and
    [before ++ ev :: after] apart: one goal for each place of [ev]. *)
Ltac peel_events before :=
  destruct before as [|? before]; cbn [app] in *;
  [ idtac
  | match goal with
    | E : _ = _ :: before ++ _ |- _ =>
        first [ discriminate E
              | injection E; clear E; intros; subst; peel_events before ]
    end ].

(** X10: one run calls each service once at most, and the generation
    service only after the speech service, with a prompt built by
    [createCodePrompt] for the language of the request. *)
Theorem processVoice_calls
    (recognize : RecognizeRequest -> JsError + RecognizeResponse)
    (generateContent : GenerateRequest -> JsError + GenerateResponse)
    (bufferFromBase64 : jsstring -> list Z) (req : Request) :
  let events := fst (run recognize generateContent bufferFromBase64 req) in
  (length (filter isCallRecognize events) <= 1)%nat /\
  (length (filter isCallGenerateContent events) <= 1)%nat /\
  forall before request after,
    events = before ++ CallGenerateContent request :: after ->
    existsb isCallRecognize before = true /\
    exists transcription,
      request = generateRequest
                  (createCodePrompt transcription (language (body req))).
Proof.
  destruct (run_Path recognize generateContent bufferFromBase64 req)
    as (events & response & Hrun & Hpath).
  rewrite Hrun. cbn [fst].
  destruct Hpath; (split; [simpl; lia | split; [simpl; lia |]]);
    intros before request after Hsplit; peel_events before;
    try discriminate;
    match goal with
    | E : _ :: _ = CallGenerateContent _ :: _ |- _ => inversion E; subst
    end;
    (split; [reflexivity | eexists; reflexivity]).
Qed.

(** ** The client *)

Lemma split_whole (sep : Z) (s : jsstring) :
  forallb (fun u => negb (u =? sep)) s = true -> Client.split sep s = [s].
Proof.
  induction s as [|c r IH]; [reflexivity|].
  cbn [forallb Client.split]. intros H. apply andb_prop in H as [Hc Hr].
  apply negb_true_iff in Hc. rewrite Hc, (IH Hr). reflexivity.
Qed.

Lemma split_first (sep : Z) (h p : jsstring) :
  forallb (fun u => negb (u =? sep)) h = true ->
  Client.split sep (h ++ sep :: p) = h :: Client.split sep p.
Proof.
  induction h as [|c r IH]; cbn [forallb app Client.split]; intros H.
  - now rewrite Z.eqb_refl.
  - apply andb_prop in H as [Hc Hr]. apply negb_true_iff in Hc.
    rewrite Hc, (IH Hr). reflexivity.
Qed.

(** X11: [blobToBase64] hands back the payload of the data URL: what
    stands behind the first comma, when the payload itself holds no comma
    (base64 text never does).  An empty payload comes back as the empty
    string. *)
Theorem blobToBase64_payload (header payload : jsstring) :
  forallb (fun u => negb (u =? Client.COMMA)) header = true ->
  forallb (fun u => negb (u =? Client.COMMA)) payload = true ->
  Client.blobToBase64 (header ++ [Client.COMMA] ++ payload)
    = VString payload.
Proof.
  intros Hh Hp. unfold Client.blobToBase64. cbn [app].
  rewrite (split_first _ _ _ Hh), (split_whole _ _ Hp). reflexivity.
Qed.

Lemma blobToBase64_payload_witness :
  Client.blobToBase64
    (lit "data:audio/webm;base64" ++ [Client.COMMA] ++ lit "GkXfo59ChoEB")
    = VString (lit "GkXfo59ChoEB").
Proof.
  apply (blobToBase64_payload (lit "data:audio/webm;base64")
           (lit "GkXfo59ChoEB")); reflexivity.
Defined.

(** X12: the selector, the table of instructions of the handler and the
    table of extensions of the client know the same six languages: each
    language the selector offers has its own instruction in the prompt and
    its own extension in the name of the download; no fallback is taken. *)
Theorem languageOptions_known (language : jsstring) :
  In language Client.languageOptions ->
  exists instruction extension,
    assoc language languageInstructions = Some instruction /\
    instructionFor (VString language) = POwn instruction /\
    assoc language Client.extensions = Some extension /\
    Client.downloadName language = lit "verbalize_output." ++ extension.
Proof.
  intros Hin. simpl in Hin.
  repeat (destruct Hin as [<- | Hin];
          [eexists _, _; repeat split; vm_compute; reflexivity|]).
  contradiction.
Qed.

Lemma languageOptions_known_witness :
  exists instruction extension,
    assoc (lit "cpp") languageInstructions = Some instruction /\
    instructionFor (VString (lit "cpp")) = POwn instruction /\
    assoc (lit "cpp") Client.extensions = Some extension /\
    Client.downloadName (lit "cpp") = lit "verbalize_output." ++ extension.
Proof.
  apply (languageOptions_known (lit "cpp")). vm_compute. tauto.
Defined.

(** X13: for a language that is neither in the table of extensions nor a
    name inherited from the prototype of the table, the download is named
    with the extension "txt". *)
Theorem downloadName_fallback (language : jsstring) :
  assoc language Client.extensions = None ->
  existsb (jsstring_eqb language) inheritedKeys = false ->
  Client.downloadName language = lit "verbalize_output.txt".
Proof.
  intros Hown Hinh. unfold Client.downloadName, Client.getExtension.
  rewrite Hown.
  assert (Hfun : assoc language objectPrototypeFunctions = None).
  { unfold inheritedKeys in Hinh. rewrite existsb_app in Hinh.
    apply orb_false_elim in Hinh as [Hinh _].
    induction objectPrototypeFunctions as [|[k v] l IH]; [reflexivity|].
    simpl in *. apply orb_false_elim in Hinh as [-> Hinh]. now apply IH. }
  rewrite Hfun.
  unfold inheritedKeys in Hinh. rewrite existsb_app in Hinh.
  apply orb_false_elim in Hinh as [_ Hinh]. simpl in Hinh.
  rewrite orb_false_r in Hinh. rewrite Hinh. reflexivity.
Qed.

Lemma downloadName_fallback_witness :
  Client.downloadName (lit "rust") = lit "verbalize_output.txt".
Proof.
  apply (downloadName_fallback (lit "rust")); reflexivity.
Defined.

(** X14: [processAudio] leaves the component not processing, however the
    exchange ends; it sends exactly one request, a POST with the payload of
    the recording and the language; and it replaces the transcript and the
    code on show only when the answer reports success. *)
Theorem processAudio_state (fetch : Request -> Client.FetchOutcome)
    (readerResult language : jsstring) (st : Client.State) :
  let request :=
    {| method := lit "POST";
       body := jsonBody (Client.blobToBase64 readerResult)
                        (VString language) |} in
  let effects := Client.processAudio fetch readerResult language in
  let final := Client.applyEffects effects st in
  Client.isProcessing final = false /\
  filter (fun eff => match eff with
                     | Client.FetchCall _ => true
                     | _ => false
                     end) effects = [Client.FetchCall request] /\
  (Client.shownTranscript final, Client.generatedCode final) =
    match fetch request with
    | Client.Resolved result =>
        if Client.success result
        then (Client.transcript result, Client.code result)
        else (Client.shownTranscript st, Client.generatedCode st)
    | Client.Rejected _ =>
        (Client.shownTranscript st, Client.generatedCode st)
    end.
Proof.
  cbv zeta. unfold Client.processAudio.
  destruct (fetch _) as [e|result]; [|destruct (Client.success result)];
    repeat split.
Qed.

Section EndToEnd.

Variable recognize : RecognizeRequest -> JsError + RecognizeResponse.
Variable generateContent : GenerateRequest -> JsError + GenerateResponse.
Variable bufferFromBase64 : jsstring -> list Z.
Variable parseError : jsstring -> JsError.

(** X15: the client against the handler.  Whatever was recorded and
    whatever the two services do, [processAudio] ends in one of two ways:
    an error toast with one of the three messages of the handler, or the
    transcript and a code without fence marker put on show with the success
    toast.  The client's own catch branch and its own fallback message are
    never reached, and the method gate of the handler is never hit. *)
Theorem processAudio_handler (readerResult language : jsstring) :
  let request :=
    {| method := lit "POST";
       body := jsonBody (Client.blobToBase64 readerResult)
                        (VString language) |} in
  (exists message,
     In message [noAudioMessage; noSpeechMessage; failedMessage] /\
     Client.processAudio
       (handlerFetch recognize generateContent bufferFromBase64 parseError)
       readerResult language =
       [ Client.SetIsProcessing true; Client.FetchCall request;
         Client.ToastError message; Client.SetIsProcessing false ]) \/
  (exists shown code,
     hasFence code = false /\
     Client.processAudio
       (handlerFetch recognize generateContent bufferFromBase64 parseError)
       readerResult language =
       [ Client.SetIsProcessing true; Client.FetchCall request;
         Client.SetTranscript (VString shown);
         Client.SetGeneratedCode (VString code);
         Client.ToastSuccess (lit "Code generated successfully!");
         Client.SetIsProcessing false ]).
Proof.
  cbv zeta. unfold Client.processAudio, handlerFetch, Client.outcomeOf.
  destruct (run_Path recognize generateContent bufferFromBase64
              {| method := lit "POST";
                 body := jsonBody (Client.blobToBase64 readerResult)
                                  (VString language) |})
    as (events & response & Hrun & Hpath).
  rewrite Hrun. cbn [snd].
  destruct Hpath;
    try (match goal with
         | E : jsstring_eqb _ _ = _ |- _ => vm_compute in E; discriminate E
         end).
  - left. exists noAudioMessage. split; [simpl; auto | reflexivity].
  - left. exists failedMessage. split; [simpl; auto | reflexivity].
  - left. exists noSpeechMessage. split; [simpl; auto | reflexivity].
  - left. exists failedMessage. split; [simpl; auto | reflexivity].
  - right. eexists _, _. split; [|reflexivity].
    apply cleanGeneratedCode_hasFence.
Qed.

(** X16: an empty recording.  When nothing stands behind the comma of the
    data URL, the audio sent is the empty string, the handler answers with
    its validation failure without calling a service, and the user is shown
    "No audio data provided". *)
Theorem processAudio_empty_recording (header language : jsstring) :
  forallb (fun u => negb (u =? Client.COMMA)) header = true ->
  Client.processAudio
       (handlerFetch recognize generateContent bufferFromBase64 parseError)
       (header ++ [Client.COMMA]) language =
    [ Client.SetIsProcessing true;
      Client.FetchCall
        {| method := lit "POST";
           body := jsonBody (VString []) (VString language) |};
      Client.ToastError noAudioMessage;
      Client.SetIsProcessing false ] /\
  fst (run recognize generateContent bufferFromBase64
         {| method := lit "POST";
            body := jsonBody (VString []) (VString language) |}) = [].
Proof.
  intros Hh. split; [|reflexivity].
  unfold Client.processAudio, Client.blobToBase64.
  rewrite (split_first _ _ _ Hh). reflexivity.
Qed.

End EndToEnd.

Lemma processAudio_empty_recording_witness :
  Client.processAudio
    (handlerFetch recognizeSpeech generateFenced keepUnits
                  (fun s => {| errName := lit "SyntaxError";
                               errMessage := s |}))
    (lit "data:audio/webm;base64" ++ [Client.COMMA]) (lit "python") =
    [ Client.SetIsProcessing true;
      Client.FetchCall
        {| method := lit "POST";
           body := jsonBody (VString []) (VString (lit "python")) |};
      Client.ToastError noAudioMessage;
      Client.SetIsProcessing false ] /\
  fst (run recognizeSpeech generateFenced keepUnits
         {| method := lit "POST";
            body := jsonBody (VString []) (VString (lit "python")) |}) = [].
Proof.
  apply (processAudio_empty_recording recognizeSpeech generateFenced
           keepUnits
           (fun s => {| errName := lit "SyntaxError"; errMessage := s |})
           (lit "data:audio/webm;base64") (lit "python")).
  reflexivity.
Defined.

(** ** The meter *)

Lemma fold_left_add_bounds (dataArray : list Z) (start : Z) :
  Forall (fun v => 0 <= v <= 255) dataArray ->
  start <= fold_left Z.add dataArray start
        <= start + 255 * Z.of_nat (length dataArray).
Proof.
  intros H. revert start.
  induction H as [|v l Hv _ IH]; intros start; [simpl; lia|].
  cbn [fold_left length]. specialize (IH (start + v)). lia.
Qed.

(** X17: the meter stays on its scale.  For the 128 bytes the analyser
    delivers, the level handed to [setAudioLevel] lies between 0 and 1, the
    height of the bar between 5 and 100 percent and its hue between 60 and
    120 degrees. *)
Theorem audioLevel_bounds (dataArray : list Z) :
  length dataArray = 128%nat ->
  Forall (fun v => 0 <= v <= 255) dataArray ->
  let level := Client.updateAudioLevel dataArray in
  (0 <= level /\ level <= 1)%Q /\
  (5 <= Client.barHeight level /\ Client.barHeight level <= 100)%Q /\
  (60 <= Client.barHue level /\ Client.barHue level <= 120)%Q.
Proof.
  intros Hlen Hbytes. cbv zeta.
  pose proof (fold_left_add_bounds dataArray 0 Hbytes) as Hsum.
  assert (Hlevel : (0 <= Client.updateAudioLevel dataArray
                    /\ Client.updateAudioLevel dataArray <= 1)%Q).
  { unfold Client.updateAudioLevel, Client.average. rewrite Hlen. split.
    - apply Q.min_glb; [|discriminate].
      unfold Qdiv, Qmult, Qinv, Qle, inject_Z. simpl. lia.
    - apply Q.le_min_r. }
  destruct Hlevel as [H0 H1]. split; [now split|].
  unfold Client.barHeight, Client.barHue.
  change (inject_Z 100) with 100%Q. change (inject_Z 5) with 5%Q.
  change (inject_Z 120) with 120%Q. change (inject_Z 60) with 60%Q.
  set (level := Client.updateAudioLevel dataArray) in *.
  repeat split.
  - apply Q.le_max_r.
  - apply Q.max_lub; lra.
  - lra.
  - lra.
Qed.

Lemma audioLevel_bounds_witness :
  (0 <= Client.updateAudioLevel halfLevelBytes
   /\ Client.updateAudioLevel halfLevelBytes <= 1)%Q /\
  (5 <= Client.barHeight (Client.updateAudioLevel halfLevelBytes)
   /\ Client.barHeight (Client.updateAudioLevel halfLevelBytes) <= 100)%Q /\
  (60 <= Client.barHue (Client.updateAudioLevel halfLevelBytes)
   /\ Client.barHue (Client.updateAudioLevel halfLevelBytes) <= 120)%Q.
Proof.
  apply (audioLevel_bounds halfLevelBytes); [reflexivity|].
  apply Forall_forall. intros v Hv. apply repeat_spec in Hv. subst v. lia.
Defined.

(** ** A reply that is one fenced block *)

Lemma removeCodeFences_line (a b : jsstring) :
  hasFence a = false ->
  removeCodeFences (a ++ NEWLINE :: b) = a ++ NEWLINE :: removeCodeFences b.
Proof.
  induction a as [|c a IH]; intros H.
  - cbn [app]. apply removeCodeFences_keep. now apply startsFence_first.
  - change (startsFence (c :: a) || hasFence a = false) in H.
    apply orb_false_elim in H as [Hs Ha]. cbn [app].
    rewrite removeCodeFences_keep; [now rewrite (IH Ha)|].
    destruct a as [|d [|e a]]; cbn [app].
    + now apply startsFence_second.
    + now apply startsFence_third.
    + exact Hs.
Qed.

Lemma skipWord_tag (tag r : jsstring) :
  forallb isWord tag = true ->
  skipWord (tag ++ NEWLINE :: r) = NEWLINE :: r.
Proof.
  induction tag as [|c tag IH]; cbn [forallb app]; intros H.
  - reflexivity.
  - apply andb_prop in H as [Hc Ht]. cbn [skipWord]. rewrite Hc.
    now apply IH.
Qed.

Lemma trimStart_line (s : jsstring) :
  trimStart (s ++ [NEWLINE])
    = if blank s then [] else trimStart s ++ [NEWLINE].
Proof.
  induction s as [|c s IH]; [reflexivity|].
  cbn [app trimStart blank forallb].
  destruct (isWhiteSpace c); [exact IH | reflexivity].
Qed.

Lemma trim_line (s : jsstring) : trim (s ++ [NEWLINE]) = trim s.
Proof.
  unfold trim. rewrite trimStart_line.
  destruct (blank s) eqn:Hb.
  - pose proof (blank_trim _ Hb) as Ht. unfold trim in Ht. now rewrite Ht.
  - unfold trimEnd. now rewrite rev_app_distr.
Qed.

(** X18: a reply that is one fenced block, with any language tag, comes
    back as the trimmed content of the block, when the content holds no
    fence marker and does not start with a preface. *)
Theorem cleanGeneratedCode_fenced_block (tag content : jsstring) :
  forallb isWord tag = true ->
  hasFence content = false ->
  startsWithPreface (trim content) = false ->
  cleanGeneratedCode
    (FENCE ++ tag ++ [NEWLINE] ++ content ++ [NEWLINE] ++ FENCE)
    = trim content.
Proof.
  intros Htag Hcontent Hpreface. unfold cleanGeneratedCode.
  rewrite removeCodeFences_skip by reflexivity.
  change (skipn 3 (FENCE ++ tag ++ [NEWLINE] ++ content
                   ++ [NEWLINE] ++ FENCE))
    with (tag ++ NEWLINE :: content ++ NEWLINE :: FENCE).
  rewrite (skipWord_tag _ _ Htag).
  change (skipNewline (NEWLINE :: content ++ NEWLINE :: FENCE))
    with (content ++ NEWLINE :: FENCE).
  rewrite (removeCodeFences_line _ _ Hcontent).
  rewrite (removeCodeFences_skip FENCE) by reflexivity.
  change (skipNewline (skipWord (skipn 3 FENCE))) with (@nil Z).
  simp removeCodeFences.
  rewrite trim_line, removeUnwantedPrefix_find.
  apply firstPreface_None in Hpreface. now rewrite Hpreface.
Qed.

Lemma cleanGeneratedCode_fenced_block_witness :
  cleanGeneratedCode
    (FENCE ++ lit "python" ++ [NEWLINE]
     ++ (lit "def add(a, b):" ++ [NEWLINE] ++ lit "    return a + b")
     ++ [NEWLINE] ++ FENCE)
    = trim (lit "def add(a, b):" ++ [NEWLINE] ++ lit "    return a + b").
Proof.
  apply (cleanGeneratedCode_fenced_block (lit "python")
           (lit "def add(a, b):" ++ [NEWLINE] ++ lit "    return a + b"));
    reflexivity.
Defined.
